(** * Explicit Runge-Kutta tableaus and ODE problems of netket's ode4jax

    A shallow embedding of
      - [netket/experimental/ode4jax/_src/ODEBase/tableau.py]
        (class [TableauRKExplicit] and the registered tableaus), and
      - [netket/experimental/ode4jax/_src/ODEBase/problem.py]
        (class [ODEProblem]).

    Conventions of the model.
      - Array entries are exact rationals ([Qc], canonical fractions, so
        that Python's [==] on entries is Leibniz equality).  The rounding
        of [float64] is not modelled: a literal such as [1/3] stands for
        the rational one third.
      - A Python exception is a value [Raise e] of [result]; a normal
        return is [Ok x].
      - The state of an integration is an array of rank 1, the shape for
        which [a[l,:] @ k] contracts over the stages; the coefficient
        matrix [a] has rank 2 and the offsets [c] rank 1, as every
        constructor call of the module gives them.  Only [b] comes in two
        ranks, and the code asks for its rank at run time.
      - Methods that read or write the integrator object run in a small
        state-and-exception monad over a [world] that holds the object
        and the log of the calls made to the right-hand side [f]. *)

From Stdlib Require Import String ZArith QArith Qcanon List Bool Lia.
From Stdlib Require Qcabs.
Import ListNotations.

Open Scope Qc_scope.

(** ** Scalars *)

(** The Python literal [n/d]. *)
Definition q (n : Z) (d : positive) : Qc := Q2Qc (n # d).

(** ** Exceptions *)

Inductive exn : Type :=
| IndexError
| NameError
| RuntimeError
| TypeError
| ValueError.

Inductive result (A : Type) : Type :=
| Ok (x : A)
| Raise (e : exn).

Arguments Ok {A} x.
Arguments Raise {A} e.

Definition rbind {A B : Type} (r : result A) (g : A -> result B) : result B :=
  match r with
  | Ok x => g x
  | Raise e => Raise e
  end.

(** What a Python property or function hands back when it is not an
    array: [None] (also the value of a body that ends without [return])
    or a boolean. *)
Inductive pyvalue : Type :=
| PyNone
| PyBool (b : bool).

(** ** Arrays *)

(** Rank-1 and rank-2 arrays as the tableau code builds them with
    [jnp.array([...])] and [jnp.array([[...], ...])]. *)
Definition vec : Type := list Qc.
Definition mat : Type := list vec.

(** The weights [b] of a tableau are the one field whose rank varies and
    is inspected at run time ([self.b.ndim]). *)
Inductive weights : Type :=
| Rank1 (v : vec)
| Rank2 (m : mat).

(** The collection of stage derivatives: an array of shape
    [(stages, width)].  The width is kept beside the rows because an array
    with no rows still has it. *)
Record stagearr : Type := mkStages { width : nat; rows : list vec }.

(** An array of any rank, as [ODEProblem] receives its [u0]: the shape
    tuple and the flat buffer. *)
Record ndarray : Type := mkArray { shape : list nat; data : list Qc }.

Fixpoint map2 {A B C : Type} (g : A -> B -> C) (xs : list A) (ys : list B)
  : list C :=
  match xs, ys with
  | x :: xs', y :: ys' => g x y :: map2 g xs' ys'
  | _, _ => []
  end.

Definition enumerate {A : Type} (xs : list A) : list (nat * A) :=
  combine (seq 0 (length xs)) xs.

Module jnp.

(** [s * v] and [v * s] for a scalar [s] and a rank-1 array [v]. *)
Definition smul (s : Qc) (v : vec) : vec := map (fun x => s * x) v.
Definition muls (v : vec) (s : Qc) : vec := map (fun x => x * s) v.

(** [s + v] for a scalar [s]. *)
Definition sadd (s : Qc) (v : vec) : vec := map (fun x => s + x) v.

(** A binary elementwise operation on two rank-1 arrays, with numpy's
    broadcasting: equal lengths, or one operand of length 1. *)
Definition broadcast2 {C : Type} (op : Qc -> Qc -> C) (x y : vec)
  : result (list C) :=
  if (length x =? length y)%nat then Ok (map2 op x y)
  else match x, y with
       | x0 :: nil, _ => Ok (map (op x0) y)
       | _, y0 :: nil => Ok (map (fun xi => op xi y0) x)
       | _, _ => Raise TypeError
       end.

Definition add : vec -> vec -> result vec := broadcast2 Qcplus.
Definition sub : vec -> vec -> result vec := broadcast2 Qcminus.

(** [x == y], elementwise. *)
Definition eq : vec -> vec -> result (list bool) := broadcast2 Qc_eq_bool.

(** [jnp.all]. *)
Definition all (bs : list bool) : bool := forallb (fun b => b) bs.

(** The position an integer index selects on an axis of [n] entries of a
    JAX array: an axis with no entry raises, a negative index counts from
    the end, and an index past either end is clamped to it (where numpy
    would raise). *)
Definition index (n : nat) (i : Z) : result nat :=
  match n with
  | O => Raise IndexError
  | S m =>
      let j := if (i <? 0)%Z then (i + Z.of_nat n)%Z else i in
      Ok (Z.to_nat (Z.max 0 (Z.min (Z.of_nat m) j)))
  end.

(** [x[i]] on the first axis. *)
Definition getitem {A : Type} (xs : list A) (i : Z) : result A :=
  rbind (index (length xs) i)
        (fun j => match nth_error xs j with
                  | Some x => Ok x
                  | None => Raise IndexError
                  end).

(** [b[i, :]]: two indices need a rank-2 array. *)
Definition getrow (b : weights) (i : Z) : result vec :=
  match b with
  | Rank1 _ => Raise IndexError
  | Rank2 m => getitem m i
  end.

(** [v @ k] for a rank-1 [v] and [k] of shape [(len v, width)]. *)
Definition matmul (v : vec) (k : stagearr) : result vec :=
  if (length v =? length (rows k))%nat
  then Ok (fold_right (fun p acc => map2 Qcplus (smul (fst p) (snd p)) acc)
                      (repeat 0 (width k)) (combine v (rows k)))
  else Raise TypeError.

(** [k.at[l].set(v)]: the value is broadcast to the shape of a row and
    an update outside the array is dropped. *)
Definition at_set (k : stagearr) (l : nat) (v : vec) : result stagearr :=
  let put (row : vec) :=
    Ok (mkStages (width k)
                 (if (l <? length (rows k))%nat
                  then firstn l (rows k) ++ row :: skipn (S l) (rows k)
                  else rows k)) in
  if (length v =? width k)%nat then put v
  else match v with
       | x :: nil => put (repeat x (width k))
       | _ => Raise ValueError
       end.

(** [k.at[jnp.array(idx)].get()]: gathers the rows at [idx]. *)
Fixpoint gather (xs : list vec) (idx : list Z) : result (list vec) :=
  match idx with
  | [] => Ok []
  | i :: idx' =>
      rbind (getitem xs i)
            (fun r => rbind (gather xs idx') (fun rs => Ok (r :: rs)))
  end.

Definition at_get (k : stagearr) (idx : list Z) : result stagearr :=
  rbind (gather (rows k) idx) (fun rs => Ok (mkStages (width k) rs)).

(** [jnp.tril]: the entries above the diagonal are replaced by zero. *)
Definition tril (m : mat) : mat :=
  map (fun ir =>
         map (fun jx => if (fst jx <=? fst ir)%nat then snd jx else 0)
             (enumerate (snd ir)))
      (enumerate m).

(** [jnp.allclose] with its default tolerances. *)
Definition rtol : Qc := q 1 100000.
Definition atol : Qc := q 1 100000000.

Definition isclose (x y : Qc) : bool :=
  Qle_bool (Qcabs.Qcabs (x - y)) (atol + rtol * Qcabs.Qcabs y).

Definition allclose (x y : mat) : bool :=
  forallb (fun b => b) (map2 (fun r s => forallb (fun b => b) (map2 isclose r s)) x y).

(** [x.ndim] and [x.reshape(new)] on an array of any rank; [asarray]
    leaves an array as it is. *)
Definition ndim (x : ndarray) : nat := length (shape x).

Definition size (sh : list nat) : nat := fold_right Nat.mul 1%nat sh.

Definition reshape (x : ndarray) (new : list nat) : result ndarray :=
  if (size new =? size (shape x))%nat then Ok (mkArray new (data x))
  else Raise TypeError.

Definition asarray (x : ndarray) : ndarray := x.

(** [jnp.asarray] of a number: an array of rank 0. *)
Definition asarray0 (x : Qc) : ndarray := mkArray [] [x].

End jnp.

(** ** The right-hand side and the integrator object *)

(** The right-hand side [f(time, state, stage=l)].  It is a function of
    its arguments only: it has no access to the integrator object. *)
Definition rhs : Type := Qc -> vec -> nat -> result vec.

Module Integrator.

(** Modelled from the spec: the integrator class is not part of the
    sources at hand; the spec's data model gives its fields as the time
    [t], the step size [dt], the state [u], the stage cache [k] and the
    counters [stats] (accepted steps, rejected steps, evaluations of the
    right-hand side).  The stepping code reads [f], [t], [dt] and [u]
    and assigns [k]. *)
Record stats_t : Type :=
  mkStats { accepted : nat; rejected : nat; rhs_evals : nat }.

Record integrator : Type :=
  mk { f : rhs; t : Qc; dt : Qc; u : vec; k : stagearr; stats : stats_t }.

(** [integrator.k = v]. *)
Definition set_k (i : integrator) (v : stagearr) : integrator :=
  mk (f i) (t i) (dt i) (u i) v (stats i).

End Integrator.

(** ** The state-and-exception monad of the stepping code *)

(** One call [f(time, state, stage=l)]. *)
Definition call : Type := (Qc * vec * nat)%type.

Record world : Type :=
  mkWorld { obj : Integrator.integrator; calls : list call }.

Definition M (A : Type) : Type := world -> result A * world.

Definition ret {A : Type} (x : A) : M A := fun w => (Ok x, w).

Definition raise {A : Type} (e : exn) : M A := fun w => (Raise e, w).

Definition bind {A B : Type} (m : M A) (g : A -> M B) : M B :=
  fun w => match m w with
           | (Ok x, w') => g x w'
           | (Raise e, w') => (Raise e, w')
           end.

(** A computation on arrays, which touches no object. *)
Definition lift {A : Type} (r : result A) : M A := fun w => (r, w).

Definition get_obj : M Integrator.integrator := fun w => (Ok (obj w), w).

Definition assign_k (v : stagearr) : M unit :=
  fun w => (Ok tt, mkWorld (Integrator.set_k (obj w) v) (calls w)).

(** The call [f(time, y, stage=l)]: it is logged, then its result or its
    exception comes back. *)
Definition call_rhs (f : rhs) (time : Qc) (y : vec) (l : nat) : M vec :=
  fun w => (f time y l, mkWorld (obj w) (calls w ++ [(time, y, l)])).

(** A read of a name that neither the function body nor the module binds. *)
Definition unbound {A : Type} (name : string) : M A := raise NameError.

Declare Scope result_scope.
Delimit Scope result_scope with result.
Declare Scope M_scope.
Delimit Scope M_scope with M.

Notation "x <- e ;; k" := (rbind e (fun x => k))
  (at level 100, e at next level, right associativity) : result_scope.
Notation "x <- e ;; k" := (bind e (fun x => k))
  (at level 100, e at next level, right associativity) : M_scope.
Notation "e ;; k" := (bind e (fun _ => k))
  (at level 100, right associativity) : M_scope.

(** [for l in ls: s = body(l, s)]. *)
Fixpoint for_each {S : Type} (ls : list nat) (body : nat -> S -> M S) (s : S)
  : M S :=
  match ls with
  | [] => ret s
  | l :: ls' => bind (body l s) (for_each ls' body)
  end.

(** [for l in range(n)]. *)
Definition for_range {S : Type} (n : nat) (body : nat -> S -> M S) (s : S)
  : M S :=
  for_each (seq 0 n) body s.

(** ** tableau.py *)

Module TableauRKExplicit.

Record t : Type :=
  mk { name : string;
       order : list Z;
       a : mat;
       b : weights;
       c : vec;
       c_error : option vec }.

(** The body computes the comparison and ends without [return]. *)
Definition is_explicit (self : t) : pyvalue :=
  let _ := jnp.allclose (a self) (jnp.tril (a self)) in
  PyNone.

(** [self.b.ndim]. *)
Definition b_ndim (self : t) : nat :=
  match b self with
  | Rank1 _ => 1
  | Rank2 _ => 2
  end.

Definition is_adaptive (self : t) : bool := (b_ndim self =? 2)%nat.

(** [jnp.all(self.a[-1, :] == self.b[0, :]) and self.c[-1] == 1]:
    the right operand of [and] is evaluated only when the left one is
    true. *)
Definition is_FSAL (self : t) : result bool :=
  (a_last <- jnp.getitem (a self) (-1) ;;
   b_first <- jnp.getrow (b self) 0 ;;
   same <- jnp.eq a_last b_first ;;
   if jnp.all same
   then c_last <- jnp.getitem (c self) (-1) ;; Ok (Qc_eq_bool c_last 1)
   else Ok false)%result.

Definition stages (self : t) : nat := length (c self).

Section Stepping.

(** [expand_dim] comes from [.utils], which is not part of the sources
    at hand: the stepping code is taken over any such function from a
    state and a number of stages to a collection of stage
    derivatives. *)
Variable expand_dim : vec -> nat -> stagearr.

Definition _get_ks (self : t) (f : rhs) (time dt : Qc) (y_t : vec)
  : M stagearr :=
  let times := jnp.sadd time (jnp.muls (c self) dt) in
  let k := expand_dim y_t (stages self) in
  for_range (stages self)
    (fun l k =>
       (a_l <- lift (jnp.getitem (a self) (Z.of_nat l)) ;;
        dy_l <- lift (jnp.matmul a_l k) ;;
        t_l <- lift (jnp.getitem times (Z.of_nat l)) ;;
        y_l <- lift (jnp.add y_t (jnp.smul dt dy_l)) ;;
        k_l <- call_rhs f t_l y_l l ;;
        lift (jnp.at_set k l k_l))%M)
    k.

Definition step (self : t) : M vec :=
  (integrator <- get_obj ;;
   let f := Integrator.f integrator in
   let time := Integrator.t integrator in
   let dt := Integrator.dt integrator in
   let y_t := Integrator.u integrator in
   k <- _get_ks self f time dt y_t ;;
   b <- lift (match b self with
              | Rank2 m => jnp.getitem m 0
              | Rank1 v => Ok v
              end) ;;
   dy <- lift (jnp.matmul (jnp.smul dt b) k) ;;
   y_tp1 <- lift (jnp.add y_t dy) ;;
   cache <- lift (jnp.at_get k [1; -1]%Z) ;;
   assign_k cache ;;
   ret y_tp1)%M.

(** Lines 114 and 115 read a bare [b]; the function binds [self],
    [integrator], [f], [t], [dt], [y_t] and [k], and the module binds
    no [b] either, so the read raises before anything is indexed. *)
Definition step_with_error (self : t) : M (vec * vec) :=
  (integrator <- get_obj ;;
   let f := Integrator.f integrator in
   let time := Integrator.t integrator in
   let dt := Integrator.dt integrator in
   let y_t := Integrator.u integrator in
   if negb (is_adaptive self) then raise RuntimeError else
   k <- _get_ks self f time dt y_t ;;
   b <- unbound "b" ;;
   b0 <- lift (jnp.getitem (b : mat) 0) ;;
   dy <- lift (jnp.matmul (jnp.smul dt b0) k) ;;
   y_tp1 <- lift (jnp.add y_t dy) ;;
   b0 <- lift (jnp.getitem b 0) ;;
   b1 <- lift (jnp.getitem b 1) ;;
   db <- lift (jnp.sub b0 b1) ;;
   y_err <- lift (jnp.matmul (jnp.smul dt db) k) ;;
   cache <- lift (jnp.at_get k [1; -1]%Z) ;;
   assign_k cache ;;
   ret (y_tp1, y_err))%M.

End Stepping.

End TableauRKExplicit.

(** ** The registered tableaus *)

(** [jnp.zeros((1,1))], [jnp.ones((1,1))] and [jnp.zeros((1))]. *)
Definition zeros_1_1 : mat := [[0]].
Definition ones_1_1 : mat := [[1]].
Definition zeros_1 : vec := [0].

(* Fixed Step methods *)
Definition bt_feuler : TableauRKExplicit.t :=
  TableauRKExplicit.mk "feuler" [1%Z]
    zeros_1_1
    (Rank2 ones_1_1)
    zeros_1
    None.

Definition bt_midpoint : TableauRKExplicit.t :=
  TableauRKExplicit.mk "midpoint" [2%Z]
    [[0;     0];
     [q 1 2; 0]]
    (Rank1 [0;   1])
    [0; q 1 2]
    None.

Definition bt_heun : TableauRKExplicit.t :=
  TableauRKExplicit.mk "heun" [2%Z]
    [[0;   0];
     [1;   0]]
    (Rank1 [q 1 2; q 1 2])
    [0; 1]
    None.

Definition bt_rk4 : TableauRKExplicit.t :=
  TableauRKExplicit.mk "rk4" [4%Z]
    [[0;     0;     0;   0];
     [q 1 2; 0;     0;   0];
     [0;     q 1 2; 0;   0];
     [0;     0;     1;   1]]
    (Rank1 [q 1 6;  q 1 3;  q 1 3;  q 1 6])
    [0; q 1 2; q 1 2; 1]
    None.

(* Adaptive step: *)
(* Heun Euler *)
Definition bt_rk12 : TableauRKExplicit.t :=
  TableauRKExplicit.mk "rk21" [2%Z; 1%Z]
    [[0;   0];
     [1;   0]]
    (Rank2 [[q 1 2; q 1 2];
            [1;     0]])
    [0; 1]
    None.

(* Bogacki-Shampine coefficients *)
Definition bt_rk23 : TableauRKExplicit.t :=
  TableauRKExplicit.mk "rk23" [2%Z; 3%Z]
    [[0;     0;     0;     0];
     [q 1 2; 0;     0;     0];
     [0;     q 3 4; 0;     0];
     [q 2 9; q 1 3; q 4 9; 0]]
    (Rank2 [[q 7 24; q 1 4; q 1 3; q 1 8];
            [q 2 9;  q 1 3; q 4 9; 0]])
    [0; q 1 2; q 3 4; 1]
    None.

Definition bt_rk4_fehlberg : TableauRKExplicit.t :=
  TableauRKExplicit.mk "fehlberg" [4%Z; 5%Z]
    [[0;           0;              0;               0;            0;       0];
     [q 1 4;       0;              0;               0;            0;       0];
     [q 3 32;      q 9 32;         0;               0;            0;       0];
     [q 1932 2197; q (-7200) 2197; q 7296 2197;     0;            0;       0];
     [q 439 216;   q (-8) 1;       q 3680 513;      q (-845) 4104; 0;      0];
     [q (-8) 27;   q 2 1;          q (-3544) 2565;  q 1859 4104;  q 11 40; 0]]
    (Rank2 [[q 25 216; 0; q 1408 2565;  q 2197 4104;   q (-1) 5;  0];
            [q 16 135; 0; q 6656 12825; q 28561 56430; q (-9) 50; q 2 55]])
    [0; q 1 4; q 3 8; q 12 13; 1; q 1 2]
    None.

Definition bt_rk4_dopri : TableauRKExplicit.t :=
  TableauRKExplicit.mk "dopri" [5%Z; 4%Z]
    [[0;            0;               0;            0;           0;               0;       0];
     [q 1 5;        0;               0;            0;           0;               0;       0];
     [q 3 40;       q 9 40;          0;            0;           0;               0;       0];
     [q 44 45;      q (-56) 15;      q 32 9;       0;           0;               0;       0];
     [q 19372 6561; q (-25360) 2187; q 64448 6561; q (-212) 729; 0;              0;       0];
     [q 9017 3168;  q (-355) 33;     q 46732 5247; q 49 176;    q (-5103) 18656; 0;       0];
     [q 35 384;     0;               q 500 1113;   q 125 192;   q (-2187) 6784;  q 11 84; 0]]
    (Rank2 [[q 35 384;     0; q 500 1113;   q 125 192; q (-2187) 6784;    q 11 84;    0];
            [q 5179 57600; 0; q 7571 16695; q 393 640; q (-92097) 339200; q 187 2100; q 1 40]])
    [0; q 1 5; q 3 10; q 4 5; q 8 9; 1; 1]
    None.

(** The tableaus the module exposes, in the order it defines them. *)
Definition registry : list TableauRKExplicit.t :=
  [bt_feuler; bt_midpoint; bt_heun; bt_rk4;
   bt_rk12; bt_rk23; bt_rk4_fehlberg; bt_rk4_dopri].

(** ** problem.py *)

Module ODEProblem.

Record t : Type :=
  mk { f : rhs; tspan : ndarray * ndarray; u0 : ndarray }.

(** [tspan[i]] on a Python tuple. *)
Definition tuple_getitem {A : Type} (xs : list A) (i : nat) : result A :=
  match nth_error xs i with
  | Some x => Ok x
  | None => Raise IndexError
  end.

(** The arguments and the (empty) keyword arguments that the dataclass
    constructor goes on with. *)
Definition init_args : Type :=
  ((rhs * (ndarray * ndarray) * ndarray) * list (string * ndarray))%type.

Definition __pre_init__ (fun_ : rhs) (tspan : list Qc) (u0 : ndarray)
  : result init_args :=
  if negb (length tspan =? 2)%nat then Raise ValueError else
  (t0 <- tuple_getitem tspan 0 ;;
   t1 <- tuple_getitem tspan 1 ;;
   let tspan := (jnp.asarray0 t0, jnp.asarray0 t1) in
   let u0 := jnp.asarray u0 in
   u0 <- (if (jnp.ndim u0 =? 0)%nat then jnp.reshape u0 [1%nat] else Ok u0) ;;
   Ok ((fun_, tspan, u0), []))%result.

(** [ODEProblem(fun, tspan, u0)]: the fields are set from what
    [__pre_init__] returns. *)
Definition new (fun_ : rhs) (tspan : list Qc) (u0 : ndarray) : result t :=
  (args <- __pre_init__ fun_ tspan u0 ;;
   Ok (mk (fst (fst (fst args))) (snd (fst (fst args))) (snd (fst args))))%result.

Definition dtmin (self : t) (use_end_time : bool) : Qc :=
  q 1 10000000000000000.

End ODEProblem.

(** ** Vocabulary of the properties *)

(** The weight rows of [b]: the vector itself when [b] has rank 1. *)
Definition weight_rows (b : weights) : list vec :=
  match b with
  | Rank1 v => [v]
  | Rank2 m => m
  end.

(** [sum(row)]. *)
Definition vsum (v : vec) : Qc := fold_left Qcplus v 0.

(** [a[i][j]]. *)
Definition entry (m : mat) (i j : nat) : Qc := nth j (nth i m []) 0.

(** [a[i][j] = 0] for all [j >= i]. *)
Definition strictly_lower (m : mat) : Prop :=
  forall i j : nat, (i <= j)%nat -> entry m i j = 0.

(** The same, decided row by row: row [i] is zero from column [i] on. *)
Definition strictly_lowerb (m : mat) : bool :=
  forallb (fun ir => forallb (Qc_eq_bool 0) (skipn (fst ir) (snd ir)))
          (enumerate m).

(** Modelled from the spec: [expand_dim] of [.utils] is not part of the
    sources at hand.  The spec has the stage derivatives accumulated into a
    collection [k], one entry per stage, and the line that [_get_ks] keeps
    as a comment fills it with zeros: [zeros_like_stages y n] is the
    zero-filled array of shape [(n, len y)]. *)
Definition zeros_like_stages (y : vec) (n : nat) : stagearr :=
  mkStages (length y) (repeat (repeat 0 (length y)) n).

(** ** A concrete problem: [du/dt = -u], [u(0) = 1], [dt = 1/10] *)

Definition decay : rhs := fun _ y _ => Ok (map Qcopp y).

Definition integrator0 : Integrator.integrator :=
  Integrator.mk decay 0 (q 1 10) [1]
                (mkStages 1 []) (Integrator.mkStats 0 0 0).

Definition world0 : world := mkWorld integrator0 [].

(** [self.b[0] if self.b.ndim == 2 else self.b], the weights [step]
    advances the state with. *)
Definition primary_weights (b : weights) : result vec :=
  match b with
  | Rank2 m => jnp.getitem m 0
  | Rank1 v => Ok v
  end.

(** The rows [1] and [-1] of a collection of stage derivatives that has
    at least one row: with a single row both are that row. *)
Definition fsal_cache (k : stagearr) : stagearr :=
  mkStages (width k)
           [nth 1 (rows k) (last (rows k) []); last (rows k) []].

(** ** Frame conditions *)

(** A computation that leaves the integrator object as it found it. *)
Definition preserves_obj {A : Type} (m : M A) : Prop :=
  forall w : world, obj (snd (m w)) = obj w.

(** Two integrator objects that agree on every field but the stage
    cache [k]. *)
Definition same_but_k (i j : Integrator.integrator) : Prop :=
  Integrator.f i = Integrator.f j /\
  Integrator.t i = Integrator.t j /\
  Integrator.dt i = Integrator.dt j /\
  Integrator.u i = Integrator.u j /\
  Integrator.stats i = Integrator.stats j.

(** ** Well-formed inputs of the stepping code *)

(** A collection of [s] stage derivatives for states of [n] entries. *)
Definition shaped (n s : nat) (k : stagearr) : Prop :=
  width k = n /\ length (rows k) = s /\
  Forall (fun r => length r = n) (rows k).

(** An [expand_dim] that returns, for a state and a number of stages, a
    collection of that shape, whatever it fills it with. *)
Definition shapes_like (expand_dim : vec -> nat -> stagearr) : Prop :=
  forall (y : vec) (s : nat), shaped (length y) s (expand_dim y s).

(** The collection filled with ones instead of zeros. *)
Definition ones_like_stages (y : vec) (n : nat) : stagearr :=
  mkStages (length y) (repeat (repeat 1 (length y)) n).

(** The coefficient matrix has one row and one column per stage. *)
Definition square (self : TableauRKExplicit.t) : Prop :=
  length (TableauRKExplicit.a self) = TableauRKExplicit.stages self /\
  Forall (fun r => length r = TableauRKExplicit.stages self)
         (TableauRKExplicit.a self).

(** A right-hand side that returns, at a state of [n] entries, a
    derivative of [n] entries. *)
Definition state_shaped (n : nat) (f : rhs) : Prop :=
  forall (time : Qc) (y : vec) (l : nat),
    length y = n -> exists r, f time y l = Ok r /\ length r = n.

(** ** The stage recurrence *)

(** The body of the loop of [_get_ks], lines 77 to 79. *)
Definition stage_body (self : TableauRKExplicit.t) (f : rhs)
           (time dt : Qc) (y_t : vec) (l : nat) (k : stagearr)
  : M stagearr :=
  (a_l <- lift (jnp.getitem (TableauRKExplicit.a self) (Z.of_nat l)) ;;
   dy_l <- lift (jnp.matmul a_l k) ;;
   t_l <- lift (jnp.getitem
                  (jnp.sadd time (jnp.muls (TableauRKExplicit.c self) dt))
                  (Z.of_nat l)) ;;
   y_l <- lift (jnp.add y_t (jnp.smul dt dy_l)) ;;
   k_l <- call_rhs f t_l y_l l ;;
   lift (jnp.at_set k l k_l))%M.

(** [y_t + dt * (a[l,:] @ k)], the state at which stage [l] calls [f]. *)
Definition stage_input (self : TableauRKExplicit.t) (dt : Qc) (y_t : vec)
           (k : stagearr) (l : nat) : result vec :=
  (a_l <- jnp.getitem (TableauRKExplicit.a self) (Z.of_nat l) ;;
   dy_l <- jnp.matmul a_l k ;;
   jnp.add y_t (jnp.smul dt dy_l))%result.

(** [times[l]], that is [t + c[l] * dt]. *)
Definition stage_time (self : TableauRKExplicit.t) (time dt : Qc) (l : nat)
  : Qc :=
  time + nth l (TableauRKExplicit.c self) 0 * dt.

(** [k] satisfies the stage equations: every row [l] is what [f] returns
    at the time and the state of stage [l], the state being computed from
    [k] itself. *)
Definition solves_stages (self : TableauRKExplicit.t) (f : rhs)
           (time dt : Qc) (y_t : vec) (k : stagearr) : Prop :=
  forall l : nat,
    (l < TableauRKExplicit.stages self)%nat ->
    exists y_l k_l,
      stage_input self dt y_t k l = Ok y_l /\
      f (stage_time self time dt l) y_l l = Ok k_l /\
      nth_error (rows k) l = Some k_l.

(** The rows of [k.at[l].set(row)]. *)
Definition set_row {A : Type} (l : nat) (row : A) (rs : list A) : list A :=
  if (l <? length rs)%nat then firstn l rs ++ row :: skipn (S l) rs else rs.

(** The value of [k.at[l].set(v)] broadcast to a row of [n] entries. *)
Definition broadcast_row (n : nat) (v : vec) : result vec :=
  if (length v =? n)%nat then Ok v
  else match v with
       | x :: nil => Ok (repeat x n)
       | _ => Raise ValueError
       end.

(** ** More concrete inputs *)

(** A right-hand side that fails. *)
Definition raising : rhs := fun _ _ _ => Raise ValueError.

Definition world_raising : world :=
  mkWorld (Integrator.mk raising 0 (q 1 10) [1]
             (mkStages 1 []) (Integrator.mkStats 0 0 0)) [].

(** [world0] after a step has left two stage derivatives in the cache. *)
Definition world0_cached : world :=
  mkWorld (Integrator.set_k integrator0 (mkStages 1 [[1]; [1]])) [].

(** * Properties *)

(** ** Lists with positions *)

Lemma in_combine_seq {A : Type} (xs : list A) (s i : nat) (x : A) :
  In (i, x) (combine (seq s (length xs)) xs) <->
  (s <= i)%nat /\ nth_error xs (i - s) = Some x.
Proof.
  revert s; induction xs as [|y ys IH]; intros s; simpl.
  - split; [tauto|]. intros [_ H]. destruct (i - s)%nat; discriminate.
  - rewrite IH. split.
    + intros [H|[Hle Hn]].
      * inversion H; subst. rewrite Nat.sub_diag. split; [lia|reflexivity].
      * split; [lia|]. replace (i - s)%nat with (S (i - S s)) by lia. exact Hn.
    + intros [Hle Hn]. destruct (Nat.eq_dec i s) as [->|Hne].
      * left. rewrite Nat.sub_diag in Hn. simpl in Hn. congruence.
      * right. split; [lia|]. replace (i - s)%nat with (S (i - S s)) in Hn by lia.
        exact Hn.
Qed.

Lemma in_enumerate {A : Type} (xs : list A) (i : nat) (x : A) :
  In (i, x) (enumerate xs) <-> nth_error xs i = Some x.
Proof.
  unfold enumerate. rewrite in_combine_seq, Nat.sub_0_r.
  split; [tauto|]. intros H; split; [lia|exact H].
Qed.

Lemma forallb_skipn {A : Type} (p : A -> bool) (d : A) (xs : list A) (i : nat) :
  forallb p (skipn i xs) = true <->
  (forall j, (i <= j)%nat -> (j < length xs)%nat -> p (nth j xs d) = true).
Proof.
  revert i; induction xs as [|x xs IH]; intros i.
  - rewrite skipn_nil. simpl. split; [intros _ j _ H; lia|reflexivity].
  - destruct i as [|i].
    + simpl. rewrite andb_true_iff, (IH 0%nat). simpl. split.
      * intros [Hx Hxs] [|j] _ Hj; [exact Hx|]. apply Hxs; lia.
      * intros H. split; [apply (H 0%nat); lia|].
        intros j _ Hj. apply (H (S j)); lia.
    + simpl. rewrite IH. split.
      * intros H [|j] Hle Hj; [lia|]. apply H; lia.
      * intros H j Hle Hj. apply (H (S j)); lia.
Qed.

Lemma nth_error_last {A : Type} (xs : list A) (d : A) :
  xs <> [] -> nth_error xs (length xs - 1) = Some (last xs d).
Proof.
  induction xs as [|x xs IH]; [congruence|intros _].
  destruct xs as [|y ys]; [reflexivity|].
  specialize (IH ltac:(discriminate)). simpl in *.
  rewrite Nat.sub_0_r in IH. exact IH.
Qed.

(** ** Arrays *)

Lemma Qc_eq_bool_true_iff (x y : Qc) : Qc_eq_bool x y = true <-> x = y.
Proof.
  split; [apply Qc_eq_bool_correct|].
  intros ->. unfold Qc_eq_bool. destruct (Qc_eq_dec y y); congruence.
Qed.

(** The row-by-row test decides strict lower triangularity. *)
Lemma strictly_lowerb_spec (m : mat) :
  strictly_lowerb m = true <-> strictly_lower m.
Proof.
  unfold strictly_lowerb, strictly_lower, entry. rewrite forallb_forall. split.
  - intros H i j Hij.
    destruct (nth_error m i) as [row|] eqn:Hrow.
    + rewrite (nth_error_nth _ _ _ Hrow).
      destruct (Nat.lt_ge_cases j (length row)) as [Hj|Hj].
      * apply in_enumerate in Hrow. specialize (H _ Hrow). simpl in H.
        rewrite (forallb_skipn _ 0) in H. specialize (H j Hij Hj).
        apply Qc_eq_bool_true_iff in H. congruence.
      * apply nth_overflow; exact Hj.
    + apply nth_error_None in Hrow. rewrite (nth_overflow m [] Hrow).
      destruct j; reflexivity.
  - intros H [i row] Hin. apply in_enumerate in Hin. simpl.
    apply (forallb_skipn _ 0). intros j Hij Hj.
    apply Qc_eq_bool_true_iff. specialize (H i j Hij).
    rewrite (nth_error_nth _ _ _ Hin) in H. congruence.
Qed.

Lemma smul_repeat_0 (s : Qc) (n : nat) :
  jnp.smul s (repeat 0 n) = repeat 0 n.
Proof.
  unfold jnp.smul. induction n as [|n IH]; simpl; [reflexivity|].
  rewrite IH. f_equal. ring.
Qed.

Lemma map2_plus_smul (s x : Qc) (row acc : vec) :
  map2 Qcplus (jnp.smul (s * x) row) (jnp.smul s acc)
  = jnp.smul s (map2 Qcplus (jnp.smul x row) acc).
Proof.
  unfold jnp.smul. revert acc.
  induction row as [|r row IH]; intros [|y acc]; simpl; try reflexivity.
  rewrite IH. f_equal. ring.
Qed.

(** [(s * v) @ k] is [s * (v @ k)]: the product the code writes as
    [dt * b @ k] is the step size times the weighted sum of the stages. *)
Lemma matmul_smul (s : Qc) (v : vec) (k : stagearr) :
  jnp.matmul (jnp.smul s v) k
  = rbind (jnp.matmul v k) (fun r => Ok (jnp.smul s r)).
Proof.
  unfold jnp.matmul. unfold jnp.smul at 1. rewrite length_map.
  destruct (length v =? length (rows k))%nat; [simpl|reflexivity].
  apply f_equal. generalize (rows k) as rs.
  induction v as [|x v IH]; intros rs; simpl.
  - symmetry. apply smul_repeat_0.
  - destruct rs as [|r rs]; simpl; [symmetry; apply smul_repeat_0|].
    fold (jnp.smul s v). rewrite IH. apply map2_plus_smul.
Qed.

Lemma index_last (m : nat) : jnp.index (S m) (-1) = Ok m.
Proof.
  unfold jnp.index. change (-1 <? 0)%Z with true. cbv iota.
  apply f_equal. lia.
Qed.

Lemma index_1 (m : nat) : jnp.index (S (S m)) 1 = Ok 1%nat.
Proof.
  unfold jnp.index. change (1 <? 0)%Z with false. cbv iota.
  apply f_equal. lia.
Qed.

Lemma getitem_last {A : Type} (xs : list A) (d : A) :
  xs <> [] -> jnp.getitem xs (-1) = Ok (last xs d).
Proof.
  intros Hne. unfold jnp.getitem.
  pose proof (nth_error_last xs d Hne) as Hlast.
  destruct (length xs) as [|m] eqn:Hlen; [destruct xs; [congruence|discriminate]|].
  rewrite index_last. simpl rbind.
  replace (S m - 1)%nat with m in Hlast by lia. rewrite Hlast. reflexivity.
Qed.

Lemma getitem_1 {A : Type} (xs : list A) (d : A) :
  xs <> [] -> jnp.getitem xs 1 = Ok (nth 1 xs (last xs d)).
Proof.
  intros Hne. destruct xs as [|x [|y ys]]; [congruence|reflexivity|].
  unfold jnp.getitem. cbn [length]. rewrite index_1. reflexivity.
Qed.

(** [k.at[jnp.array([1,-1])].get()] on a collection with at least one
    row. *)
Lemma at_get_1_last (k : stagearr) :
  rows k <> [] -> jnp.at_get k [1; -1]%Z = Ok (fsal_cache k).
Proof.
  intros Hne. unfold jnp.at_get. cbn [jnp.gather].
  rewrite (getitem_1 (A:=vec) _ [] Hne).
  rewrite (getitem_last (A:=vec) _ [] Hne).
  reflexivity.
Qed.

(** ** The monad *)

Lemma preserves_ret {A : Type} (x : A) : preserves_obj (ret x).
Proof. intros w; reflexivity. Qed.

Lemma preserves_raise {A : Type} (e : exn) : preserves_obj (@raise A e).
Proof. intros w; reflexivity. Qed.

Lemma preserves_lift {A : Type} (r : result A) : preserves_obj (lift r).
Proof. intros w; reflexivity. Qed.

Lemma preserves_call_rhs (f : rhs) (time : Qc) (y : vec) (l : nat) :
  preserves_obj (call_rhs f time y l).
Proof. intros w; reflexivity. Qed.

Lemma preserves_bind {A B : Type} (m : M A) (g : A -> M B) :
  preserves_obj m -> (forall x, preserves_obj (g x)) -> preserves_obj (bind m g).
Proof.
  intros Hm Hg w. unfold bind. specialize (Hm w).
  destruct (m w) as [[x|e] w1]; simpl in *; [rewrite Hg|]; exact Hm.
Qed.

Lemma preserves_for_each {S : Type} (body : nat -> S -> M S) (ls : list nat) :
  (forall l s, preserves_obj (body l s)) ->
  forall s, preserves_obj (for_each ls body s).
Proof.
  intros Hbody. induction ls as [|l ls IH]; intros s; simpl.
  - apply preserves_ret.
  - apply preserves_bind; [apply Hbody|exact IH].
Qed.

Create HintDb frame.

#[local] Hint Resolve preserves_ret preserves_raise preserves_lift
  preserves_call_rhs : frame.

Ltac frame := repeat (apply preserves_bind; [|intros ?]); auto with frame.

Lemma same_but_k_refl (i : Integrator.integrator) : same_but_k i i.
Proof. repeat split. Qed.

Lemma same_but_k_set_k (i : Integrator.integrator) (v : stagearr) :
  same_but_k (Integrator.set_k i v) i.
Proof. repeat split. Qed.

(** ** Stage evaluation and stepping *)

(** Evaluating the stages calls [f] and builds [k]; it never touches the
    integrator object. *)
Lemma preserves_get_ks expand_dim (self : TableauRKExplicit.t) (f : rhs)
      (time dt : Qc) (y_t : vec) :
  preserves_obj (TableauRKExplicit._get_ks expand_dim self f time dt y_t).
Proof.
  unfold TableauRKExplicit._get_ks, for_range.
  apply preserves_for_each. intros l s. frame.
Qed.

(** The guard of [step_with_error]: on a tableau that is not adaptive the
    call raises [RuntimeError] in the world it was made in. *)
Lemma step_with_error_guard expand_dim (self : TableauRKExplicit.t)
      (w : world) :
  TableauRKExplicit.is_adaptive self = false ->
  TableauRKExplicit.step_with_error expand_dim self w = (Raise RuntimeError, w).
Proof.
  intros Had. unfold TableauRKExplicit.step_with_error, bind, get_obj.
  rewrite Had. reflexivity.
Qed.

(** Past the guard, [step_with_error] evaluates the stages and then reads
    the unbound name [b]: it ends in the exception of the stage
    evaluation, if there is one, and in [NameError] otherwise. *)
Lemma step_with_error_adaptive expand_dim (self : TableauRKExplicit.t)
      (w : world) :
  TableauRKExplicit.is_adaptive self = true ->
  TableauRKExplicit.step_with_error expand_dim self w =
  match TableauRKExplicit._get_ks expand_dim self (Integrator.f (obj w))
          (Integrator.t (obj w)) (Integrator.dt (obj w))
          (Integrator.u (obj w)) w
  with
  | (Ok _, w1) => (Raise NameError, w1)
  | (Raise e, w1) => (Raise e, w1)
  end.
Proof.
  intros Had. unfold TableauRKExplicit.step_with_error, bind, get_obj.
  rewrite Had. simpl.
  destruct (TableauRKExplicit._get_ks _ _ _ _ _ _ w) as [[k|e] w1]; reflexivity.
Qed.

Lemma step_with_error_preserves expand_dim (self : TableauRKExplicit.t) :
  preserves_obj (TableauRKExplicit.step_with_error expand_dim self).
Proof.
  intros w. destruct (TableauRKExplicit.is_adaptive self) eqn:Had.
  - rewrite (step_with_error_adaptive _ _ _ Had).
    pose proof (preserves_get_ks expand_dim self (Integrator.f (obj w))
                  (Integrator.t (obj w)) (Integrator.dt (obj w))
                  (Integrator.u (obj w)) w) as Hk.
    destruct (TableauRKExplicit._get_ks _ _ _ _ _ _ w) as [[k|e] w1];
      exact Hk.
  - rewrite (step_with_error_guard _ _ _ Had). reflexivity.
Qed.

(** What [step] returns and writes when every operation of its body goes
    through: the state advanced by [dt] times the weighted sum of the
    stages, and the rows [1] and [-1] of [k] in the cache. *)
Lemma step_returns expand_dim (self : TableauRKExplicit.t) (w w1 : world)
      (k : stagearr) (b dy y_tp1 : vec) :
  TableauRKExplicit._get_ks expand_dim self (Integrator.f (obj w))
    (Integrator.t (obj w)) (Integrator.dt (obj w)) (Integrator.u (obj w)) w
  = (Ok k, w1) ->
  rows k <> [] ->
  primary_weights (TableauRKExplicit.b self) = Ok b ->
  jnp.matmul b k = Ok dy ->
  jnp.add (Integrator.u (obj w)) (jnp.smul (Integrator.dt (obj w)) dy)
  = Ok y_tp1 ->
  TableauRKExplicit.step expand_dim self w
  = (Ok y_tp1,
     mkWorld (Integrator.set_k (obj w1) (fsal_cache k)) (calls w1)).
Proof.
  intros Hks Hne Hb Hdy Hy.
  unfold TableauRKExplicit.step, bind, get_obj. rewrite Hks.
  unfold primary_weights in Hb. unfold lift. rewrite Hb.
  rewrite matmul_smul, Hdy. cbn [rbind]. cbv iota beta. rewrite Hy.
  rewrite (at_get_1_last k Hne). reflexivity.
Qed.

(** ** The derived properties of a tableau *)

Lemma eq_same (r : vec) :
  exists bs, jnp.eq r r = Ok bs /\ jnp.all bs = true.
Proof.
  unfold jnp.eq, jnp.broadcast2. rewrite Nat.eqb_refl.
  eexists; split; [reflexivity|].
  unfold jnp.all. induction r as [|x r IH]; simpl; [reflexivity|].
  rewrite IH, andb_true_r. apply Qc_eq_bool_true_iff. reflexivity.
Qed.

(** With a rank-2 [b], [is_FSAL] is true when the last row of [a] is the
    first row of [b] and the last offset is one. *)
Lemma is_FSAL_rank2 (self : TableauRKExplicit.t) (m : mat) (r : vec) :
  TableauRKExplicit.b self = Rank2 m ->
  jnp.getitem (TableauRKExplicit.a self) (-1) = Ok r ->
  jnp.getitem m 0 = Ok r ->
  jnp.getitem (TableauRKExplicit.c self) (-1) = Ok 1 ->
  TableauRKExplicit.is_FSAL self = Ok true.
Proof.
  intros Hb Ha Hm Hc. unfold TableauRKExplicit.is_FSAL, jnp.getrow.
  rewrite Hb, Ha, Hm. cbn [rbind].
  destruct (eq_same r) as [bs [-> Hall]]. cbn [rbind].
  rewrite Hall, Hc. reflexivity.
Qed.

(** With a rank-1 [b], [is_FSAL] raises: [self.b[0, :]] has one index too
    many. *)
Lemma is_FSAL_rank1 (self : TableauRKExplicit.t) (v : vec) :
  TableauRKExplicit.b self = Rank1 v ->
  exists e, TableauRKExplicit.is_FSAL self = Raise e.
Proof.
  intros Hb. unfold TableauRKExplicit.is_FSAL. rewrite Hb.
  destruct (jnp.getitem (TableauRKExplicit.a self) (-1)); simpl; eauto.
Qed.

(** ** problem.py *)

Lemma pre_init_pair (fun_ : rhs) (t0 t1 : Qc) (u0 : ndarray) :
  ODEProblem.__pre_init__ fun_ [t0; t1] u0 =
  Ok ((fun_, (jnp.asarray0 t0, jnp.asarray0 t1),
       if (jnp.ndim u0 =? 0)%nat then mkArray [1%nat] (data u0) else u0), []).
Proof.
  unfold ODEProblem.__pre_init__, jnp.asarray, jnp.ndim. simpl.
  destruct u0 as [sh d]. simpl. destruct sh; reflexivity.
Qed.

Lemma pre_init_not_pair (fun_ : rhs) (tspan : list Qc) (u0 : ndarray) :
  length tspan <> 2%nat ->
  ODEProblem.__pre_init__ fun_ tspan u0 = Raise ValueError.
Proof.
  intros Hlen. unfold ODEProblem.__pre_init__.
  apply Nat.eqb_neq in Hlen. rewrite Hlen. reflexivity.
Qed.

(** * The properties of the specification *)

(** C1.  [step_with_error] does not return the pair of the advanced state
    and the error estimate: on every tableau and every integrator the
    call ends in an exception.  On the adaptive pair [bt_rk12] it
    evaluates both stages and then raises [NameError], at the read of the
    bare name [b]. *)
Theorem step_with_error_never_returns :
  (forall expand_dim (self : TableauRKExplicit.t) (w : world),
      exists e w',
        TableauRKExplicit.step_with_error expand_dim self w = (Raise e, w')) /\
  TableauRKExplicit.is_adaptive bt_rk12 = true /\
  TableauRKExplicit.step_with_error zeros_like_stages bt_rk12 world0
  = (Raise NameError,
     mkWorld integrator0 [(0, [1], 0%nat); (q 1 10, [q 9 10], 1%nat)]).
Proof.
  split; [|split; [reflexivity|vm_compute; reflexivity]].
  intros expand_dim self w.
  destruct (TableauRKExplicit.is_adaptive self) eqn:Had.
  - rewrite (step_with_error_adaptive _ _ _ Had).
    destruct (TableauRKExplicit._get_ks _ _ _ _ _ _ w) as [[k|e] w1]; eauto.
  - rewrite (step_with_error_guard _ _ _ Had). eauto.
Qed.

(** C2.  The registered [bt_rk4] is not strictly lower triangular: its
    entry [a[3][3]] is one.  The other seven registered tableaus are
    strictly lower triangular. *)
Theorem bt_rk4_diagonal_entry :
  entry (TableauRKExplicit.a bt_rk4) 3 3 = 1 /\
  ~ strictly_lower (TableauRKExplicit.a bt_rk4) /\
  Forall (fun tab => strictly_lower (TableauRKExplicit.a tab))
         [bt_feuler; bt_midpoint; bt_heun;
          bt_rk12; bt_rk23; bt_rk4_fehlberg; bt_rk4_dopri].
Proof.
  split; [reflexivity|split].
  - intros H. specialize (H 3%nat 3%nat (Nat.le_refl 3)). discriminate H.
  - repeat constructor; apply strictly_lowerb_spec; vm_compute; reflexivity.
Qed.

(** C3.  [is_explicit] returns [None] on every tableau, whatever its
    coefficient matrix: on [bt_heun], whose matrix is strictly lower
    triangular, it does not return [True].  The comparison that the body
    computes and drops keeps the diagonal, so it holds of [bt_rk4] too. *)
Theorem is_explicit_returns_None :
  (forall self : TableauRKExplicit.t,
      TableauRKExplicit.is_explicit self = PyNone) /\
  strictly_lower (TableauRKExplicit.a bt_heun) /\
  TableauRKExplicit.is_explicit bt_heun <> PyBool true /\
  jnp.allclose (TableauRKExplicit.a bt_rk4)
               (jnp.tril (TableauRKExplicit.a bt_rk4)) = true.
Proof.
  split; [intros self; reflexivity|].
  split; [apply strictly_lowerb_spec; vm_compute; reflexivity|].
  split; [discriminate|vm_compute; reflexivity].
Qed.

(** C4.  [is_adaptive] tests the rank of [b], not the number of its
    rows: it is true on [bt_feuler], whose [b] is the one-row matrix
    [[[1]]].  On the other seven registered tableaus it is false on the
    fixed-step ones and true on the adaptive pairs. *)
Theorem is_adaptive_bt_feuler :
  (forall self : TableauRKExplicit.t,
      TableauRKExplicit.is_adaptive self = true <->
      exists m, TableauRKExplicit.b self = Rank2 m) /\
  TableauRKExplicit.is_adaptive bt_feuler = true /\
  weight_rows (TableauRKExplicit.b bt_feuler) = [[1]] /\
  map TableauRKExplicit.is_adaptive registry
  = [true; false; false; false; true; true; true; true].
Proof.
  split; [|repeat split].
  intros self. unfold TableauRKExplicit.is_adaptive, TableauRKExplicit.b_ndim.
  destruct (TableauRKExplicit.b self) as [v|m]; simpl; split.
  - discriminate.
  - intros [m H]; discriminate H.
  - intros _; exists m; reflexivity.
  - reflexivity.
Qed.

(** C5.  [is_FSAL] does not return [False] on [bt_rk4]: it raises
    [IndexError], as on every tableau whose [b] has rank 1.  On
    [bt_rk4_dopri] it returns [True]. *)
Theorem is_FSAL_bt_rk4_raises :
  TableauRKExplicit.is_FSAL bt_rk4 = Raise IndexError /\
  map TableauRKExplicit.is_FSAL [bt_midpoint; bt_heun]
  = [Raise IndexError; Raise IndexError] /\
  TableauRKExplicit.is_FSAL bt_rk4_dopri = Ok true.
Proof.
  split; [reflexivity|split; [reflexivity|]].
  eapply is_FSAL_rank2; reflexivity.
Qed.

(** C6.  On a tableau that is not adaptive, [step_with_error] raises
    [RuntimeError] and leaves the world as it was: no call of the
    right-hand side is logged, and the integrator object, with its [t],
    [dt], [u] and [k], is the one the call received. *)
Theorem step_with_error_not_adaptive expand_dim (self : TableauRKExplicit.t)
        (w : world) :
  TableauRKExplicit.is_adaptive self = false ->
  TableauRKExplicit.step_with_error expand_dim self w = (Raise RuntimeError, w).
Proof. exact (step_with_error_guard expand_dim self w). Qed.

Lemma step_with_error_not_adaptive_bt_rk4 :
  TableauRKExplicit.is_adaptive bt_rk4 = false /\
  TableauRKExplicit.step_with_error zeros_like_stages bt_rk4 world0
  = (Raise RuntimeError, world0).
Proof.
  split; [reflexivity|].
  apply (step_with_error_not_adaptive zeros_like_stages bt_rk4 world0).
  reflexivity.
Defined.

(** C7.  [step] returns [y + dt * (b . k)], but the cache it writes holds
    the rows [1] and [-1] of [k], not the rows [0] and [stages-1]: on
    [bt_heun] with [du/dt = -u], [u = 1] and [dt = 1/10] the stages are
    [-1] and [-9/10], the result is [181/200], and the cache holds
    [-9/10] twice. *)
Theorem step_caches_rows_1_and_last :
  fst (TableauRKExplicit._get_ks zeros_like_stages bt_heun
         decay 0 (q 1 10) [1] world0)
  = Ok (mkStages 1 [[q (-1) 1]; [q (-9) 10]]) /\
  fst (TableauRKExplicit.step zeros_like_stages bt_heun world0)
  = Ok [q 181 200] /\
  Integrator.k (obj (snd (TableauRKExplicit.step zeros_like_stages
                            bt_heun world0)))
  = mkStages 1 [[q (-9) 10]; [q (-9) 10]] /\
  mkStages 1 [[q (-9) 10]; [q (-9) 10]]
  <> mkStages 1 [[q (-1) 1]; [q (-9) 10]].
Proof.
  split; [|split; [|split]].
  - vm_compute. reflexivity.
  - vm_compute. reflexivity.
  - vm_compute. reflexivity.
  - intros H. discriminate H.
Qed.

(** C8.  Constructing an [ODEProblem] raises [ValueError] exactly when
    [tspan] does not have two elements.  Otherwise it succeeds, and the
    stored [u0] has at least one dimension: an initial state of rank 0
    is stored with shape [(1,)] and the same entry, any other as it
    is. *)
Theorem ODEProblem_new_validates (fun_ : rhs) (tspan : list Qc)
        (u0 : ndarray) :
  (ODEProblem.new fun_ tspan u0 = Raise ValueError <->
   length tspan <> 2%nat) /\
  (length tspan = 2%nat ->
   exists p,
     ODEProblem.new fun_ tspan u0 = Ok p /\
     (1 <= jnp.ndim (ODEProblem.u0 p))%nat /\
     data (ODEProblem.u0 p) = data u0 /\
     (jnp.ndim u0 = 0%nat -> shape (ODEProblem.u0 p) = [1%nat]) /\
     (jnp.ndim u0 <> 0%nat -> ODEProblem.u0 p = u0)).
Proof.
  assert (Hok : length tspan = 2%nat ->
                exists t0 t1, tspan = [t0; t1]).
  { intros Hlen. destruct tspan as [|t0 [|t1 [|t2 rest]]];
      try discriminate Hlen. eauto. }
  split; [split|].
  - intros Hraise Hlen. destruct (Hok Hlen) as [t0 [t1 ->]].
    unfold ODEProblem.new in Hraise. rewrite pre_init_pair in Hraise.
    discriminate Hraise.
  - intros Hlen. unfold ODEProblem.new.
    rewrite (pre_init_not_pair _ _ _ Hlen). reflexivity.
  - intros Hlen. destruct (Hok Hlen) as [t0 [t1 ->]].
    unfold ODEProblem.new. rewrite pre_init_pair. cbn [rbind fst snd].
    eexists; split; [reflexivity|]. cbn [ODEProblem.u0].
    destruct (jnp.ndim u0 =? 0)%nat eqn:Hnd.
    + apply Nat.eqb_eq in Hnd. unfold jnp.ndim at 1. simpl.
      repeat split; auto. intros H; contradiction.
    + apply Nat.eqb_neq in Hnd.
      repeat split; auto; [lia|intros H; contradiction].
Qed.

Lemma ODEProblem_new_scalar_state :
  exists p,
    ODEProblem.new decay [0; 1] (mkArray [] [1]) = Ok p /\
    shape (ODEProblem.u0 p) = [1%nat].
Proof.
  destruct (ODEProblem_new_validates decay [0; 1] (mkArray [] [1]))
    as [_ H].
  destruct (H eq_refl) as [p [Hp [_ [_ [Hshape _]]]]].
  exists p. split; [exact Hp|exact (Hshape eq_refl)].
Defined.

(** C9.  In every registered tableau each weight row of [b] sums to one,
    the coefficients read as exact fractions, and [c[0]] is zero. *)
Theorem registry_weights_sum_to_one :
  Forall (fun tab =>
            Forall (fun row => vsum row = 1)
                   (weight_rows (TableauRKExplicit.b tab)) /\
            jnp.getitem (TableauRKExplicit.c tab) 0 = Ok 0)
         registry.
Proof.
  repeat constructor; apply Qc_is_canon; vm_compute; reflexivity.
Qed.

(** C10.  Whatever way a call of [step] or of [step_with_error] ends, the
    integrator object it leaves agrees with the one it found on [f],
    [t], [dt], [u] and [stats]: the stage cache [k] is the only field
    either method can have written. *)
Theorem step_writes_only_k expand_dim (self : TableauRKExplicit.t)
        (w : world) :
  same_but_k (obj (snd (TableauRKExplicit.step expand_dim self w))) (obj w) /\
  same_but_k (obj (snd (TableauRKExplicit.step_with_error expand_dim self w)))
             (obj w).
Proof.
  split.
  - unfold TableauRKExplicit.step, bind, get_obj.
    pose proof (preserves_get_ks expand_dim self (Integrator.f (obj w))
                  (Integrator.t (obj w)) (Integrator.dt (obj w))
                  (Integrator.u (obj w)) w) as Hk.
    destruct (TableauRKExplicit._get_ks _ _ _ _ _ _ w) as [[k|e] w1];
      simpl in Hk; [|simpl; rewrite Hk; apply same_but_k_refl].
    unfold lift.
    repeat match goal with
           | |- context [match ?r with Ok _ => _ | Raise _ => _ end] =>
               destruct r; simpl; try (rewrite Hk; apply same_but_k_refl)
           end.
    all: simpl; try rewrite Hk; auto using same_but_k_refl, same_but_k_set_k.
  - rewrite step_with_error_preserves. apply same_but_k_refl.
Qed.

(** * Further properties of the stepping code *)

(** ** Arrays and shapes *)

Lemma length_map2 {A B C : Type} (g : A -> B -> C) (xs : list A) (ys : list B) :
  length (map2 g xs ys) = Nat.min (length xs) (length ys).
Proof.
  revert ys; induction xs as [|x xs IH]; intros [|y ys]; simpl; auto.
Qed.

Lemma length_smul (s : Qc) (v : vec) : length (jnp.smul s v) = length v.
Proof. apply length_map. Qed.

Lemma smul_0 (v : vec) : jnp.smul 0 v = repeat 0 (length v).
Proof.
  unfold jnp.smul. induction v as [|x v IH]; simpl; [reflexivity|].
  rewrite IH. f_equal. ring.
Qed.

Lemma map2_plus_zeros (v : vec) :
  map2 Qcplus v (repeat 0 (length v)) = v.
Proof.
  induction v as [|x v IH]; simpl; [reflexivity|].
  rewrite IH. f_equal. ring.
Qed.

Lemma smul_1 (v : vec) : jnp.smul 1 v = v.
Proof.
  unfold jnp.smul. induction v as [|x v IH]; simpl; [reflexivity|].
  rewrite IH. f_equal. ring.
Qed.

Lemma weighted_sum_length (n : nat) (ps : list (Qc * vec)) :
  Forall (fun p => length (snd p) = n) ps ->
  length (fold_right (fun p acc => map2 Qcplus (jnp.smul (fst p) (snd p)) acc)
                     (repeat 0 n) ps) = n.
Proof.
  induction 1 as [|p ps Hp _ IH]; cbn [fold_right]; [apply repeat_length|].
  cbv beta in Hp. rewrite length_map2, length_smul. unfold vec in *.
  rewrite Hp, IH. apply Nat.min_id.
Qed.

Lemma Forall_combine_snd {A B : Type} (P : B -> Prop) (xs : list A) (ys : list B) :
  Forall P ys -> Forall (fun p => P (snd p)) (combine xs ys).
Proof.
  intros H. revert xs. induction H as [|y ys Hy _ IH]; intros [|x xs]; simpl;
    constructor; auto.
Qed.

Lemma weighted_sum_agree (n : nat) (v : vec) :
  forall (rs rs' : list vec) (l : nat),
    Forall (fun r => length r = n) rs ->
    Forall (fun r => length r = n) rs' ->
    length rs = length rs' ->
    (forall j, (j < l)%nat -> nth_error rs j = nth_error rs' j) ->
    (forall j, (l <= j)%nat -> nth j v 0 = 0) ->
    fold_right (fun p acc => map2 Qcplus (jnp.smul (fst p) (snd p)) acc)
               (repeat 0 n) (combine v rs)
    = fold_right (fun p acc => map2 Qcplus (jnp.smul (fst p) (snd p)) acc)
                 (repeat 0 n) (combine v rs').
Proof.
  induction v as [|x v IH]; intros rs rs' l Hrs Hrs' Hlen Hlow Hzero;
    [reflexivity|].
  destruct rs as [|r rs], rs' as [|r' rs']; try discriminate Hlen;
    [reflexivity|].
  apply Forall_cons_iff in Hrs as [Hr Hrs].
  apply Forall_cons_iff in Hrs' as [Hr' Hrs'].
  injection Hlen as Hlen. simpl.
  destruct l as [|l].
  - assert (Hx : x = 0) by (apply (Hzero 0%nat); lia). subst x.
    rewrite !smul_0, Hr, Hr'. f_equal.
    apply (IH rs rs' 0%nat); auto; [intros j Hj; lia|].
    intros j Hj. apply (Hzero (S j)); lia.
  - assert (Hrr : r = r').
    { specialize (Hlow 0%nat ltac:(lia)). simpl in Hlow. congruence. }
    subst r'. f_equal.
    apply (IH rs rs' l); auto.
    + intros j Hj. apply (Hlow (S j)). lia.
    + intros j Hj. apply (Hzero (S j)). lia.
Qed.

Lemma weighted_sum_zero (n : nat) (v : vec) :
  forall rs : list vec,
    Forall (fun r => length r = n) rs ->
    (forall j, nth j v 0 = 0) ->
    fold_right (fun p acc => map2 Qcplus (jnp.smul (fst p) (snd p)) acc)
               (repeat 0 n) (combine v rs)
    = repeat 0 n.
Proof.
  induction v as [|x v IH]; intros rs Hrs Hzero; [reflexivity|].
  destruct rs as [|r rs]; [reflexivity|].
  apply Forall_cons_iff in Hrs as [Hr Hrs]. simpl.
  rewrite (IH rs Hrs) by (intros j; apply (Hzero (S j))).
  assert (Hx : x = 0) by (apply (Hzero 0%nat)). subst x.
  rewrite smul_0, Hr.
  rewrite <- (repeat_length 0 n) at 2. apply map2_plus_zeros.
Qed.

Lemma add_same_length (x y : vec) :
  length x = length y -> jnp.add x y = Ok (map2 Qcplus x y).
Proof.
  intros H. unfold jnp.add, jnp.broadcast2.
  apply Nat.eqb_eq in H. rewrite H. reflexivity.
Qed.

Lemma matmul_ok (n s : nat) (v : vec) (k : stagearr) :
  shaped n s k -> length v = s ->
  exists dy, jnp.matmul v k = Ok dy /\ length dy = n.
Proof.
  intros Hk Hv. unfold jnp.matmul.
  destruct Hk as [Hw [Hs Hrows]].
  rewrite Hv, Hs, Nat.eqb_refl. eexists; split; [reflexivity|].
  rewrite Hw. apply weighted_sum_length.
  apply (Forall_combine_snd (fun r : vec => length r = n)). exact Hrows.
Qed.

Lemma matmul_agree (n s l : nat) (v : vec) (k k' : stagearr) :
  shaped n s k -> shaped n s k' ->
  (forall j, (j < l)%nat -> nth_error (rows k) j = nth_error (rows k') j) ->
  (forall j, (l <= j)%nat -> nth j v 0 = 0) ->
  jnp.matmul v k = jnp.matmul v k'.
Proof.
  intros [Hw [Hs Hrows]] [Hw' [Hs' Hrows']] Hlow Hzero.
  unfold jnp.matmul. rewrite Hs, Hs', Hw, Hw'.
  destruct (length v =? s)%nat; [|reflexivity].
  f_equal. apply (weighted_sum_agree n v _ _ l); auto. congruence.
Qed.

Lemma index_nat (n l : nat) : (l < n)%nat -> jnp.index n (Z.of_nat l) = Ok l.
Proof.
  intros Hl. unfold jnp.index. destruct n as [|m]; [lia|].
  destruct (Z.of_nat l <? 0)%Z eqn:Hneg; [apply Z.ltb_lt in Hneg; lia|].
  apply f_equal. lia.
Qed.

Lemma index_nat_le (n l j : nat) :
  jnp.index n (Z.of_nat l) = Ok j -> (j <= l)%nat /\ (j < n)%nat.
Proof.
  unfold jnp.index. destruct n as [|m]; [discriminate|].
  destruct (Z.of_nat l <? 0)%Z eqn:Hneg; [apply Z.ltb_lt in Hneg; lia|].
  intros H; injection H as <-. lia.
Qed.

Lemma getitem_nat {A : Type} (xs : list A) (l : nat) (x : A) :
  nth_error xs l = Some x -> jnp.getitem xs (Z.of_nat l) = Ok x.
Proof.
  intros Hx. unfold jnp.getitem.
  rewrite index_nat by (apply nth_error_Some; congruence).
  simpl. rewrite Hx. reflexivity.
Qed.

Lemma getitem_nat_le {A : Type} (xs : list A) (l : nat) (x : A) :
  jnp.getitem xs (Z.of_nat l) = Ok x ->
  exists j, (j <= l)%nat /\ nth_error xs j = Some x.
Proof.
  unfold jnp.getitem.
  destruct (jnp.index (length xs) (Z.of_nat l)) as [j|e] eqn:Hj; [|discriminate].
  apply index_nat_le in Hj. simpl.
  destruct (nth_error xs j) as [x'|] eqn:Hx; [|discriminate].
  intros H; injection H as <-. exists j. split; [lia|exact Hx].
Qed.

Lemma getitem_0 {A : Type} (xs : list A) (d : A) :
  xs <> [] -> jnp.getitem xs 0 = Ok (hd d xs).
Proof.
  intros Hne. destruct xs as [|x xs]; [congruence|].
  apply (getitem_nat (x :: xs) 0 x). reflexivity.
Qed.

Lemma nth_error_times (time dt : Qc) (c : vec) (l : nat) :
  (l < length c)%nat ->
  nth_error (jnp.sadd time (jnp.muls c dt)) l = Some (time + nth l c 0 * dt).
Proof.
  intros Hl. unfold jnp.sadd, jnp.muls.
  rewrite !nth_error_map.
  destruct (nth_error c l) as [x|] eqn:Hx.
  - rewrite (nth_error_nth _ _ _ Hx). reflexivity.
  - apply nth_error_None in Hx. lia.
Qed.

Lemma all_eq_iff (r r' : vec) :
  length r = length r' ->
  (jnp.all (map2 Qc_eq_bool r r') = true <-> r = r').
Proof.
  revert r'. unfold jnp.all.
  induction r as [|x r IH]; intros [|x' r'] Hlen; try discriminate Hlen.
  - simpl. tauto.
  - injection Hlen as Hlen. simpl. rewrite andb_true_iff, (IH r' Hlen).
    rewrite Qc_eq_bool_true_iff. split.
    + intros [-> ->]. reflexivity.
    + intros H; injection H as -> ->. auto.
Qed.

Lemma at_set_eq (k : stagearr) (l : nat) (v : vec) :
  jnp.at_set k l v
  = rbind (broadcast_row (width k) v)
          (fun row => Ok (mkStages (width k) (set_row l row (rows k)))).
Proof.
  unfold jnp.at_set, broadcast_row, set_row.
  destruct (length v =? width k)%nat; [reflexivity|].
  destruct v as [|x [|y v]]; reflexivity.
Qed.


Lemma broadcast_row_same (n : nat) (v : vec) :
  length v = n -> broadcast_row n v = Ok v.
Proof.
  intros H. unfold broadcast_row. apply Nat.eqb_eq in H. rewrite H. reflexivity.
Qed.

Lemma nth_error_update {A : Type} (row : A) (l : nat) :
  forall (rs : list A) (j : nat),
    (l < length rs)%nat ->
    nth_error (firstn l rs ++ row :: skipn (S l) rs) j
    = if (j =? l)%nat then Some row else nth_error rs j.
Proof.
  induction l as [|l IH]; intros [|r rs] j Hl; simpl in Hl; try lia.
  - destruct j; reflexivity.
  - destruct j as [|j]; [reflexivity|]. apply (IH rs j). lia.
Qed.

Lemma nth_error_set_row {A : Type} (l : nat) (row : A) (rs : list A)
      (j : nat) :
  (l < length rs)%nat ->
  nth_error (set_row l row rs) j
  = if (j =? l)%nat then Some row else nth_error rs j.
Proof.
  intros Hl. unfold set_row.
  rewrite (proj2 (Nat.ltb_lt _ _) Hl). apply nth_error_update. exact Hl.
Qed.

Lemma length_set_row {A : Type} (l : nat) (row : A) :
  forall rs : list A, length (set_row l row rs) = length rs.
Proof.
  unfold set_row. intros rs.
  destruct (l <? length rs)%nat eqn:Hl; [|reflexivity].
  apply Nat.ltb_lt in Hl.
  rewrite length_app, length_firstn. cbn [length]. rewrite length_skipn. lia.
Qed.

Lemma Forall_update {A : Type} (P : A -> Prop) (row : A) (l : nat) :
  forall rs : list A,
    P row -> Forall P rs ->
    Forall P (firstn l rs ++ row :: skipn (S l) rs).
Proof.
  induction l as [|l IH]; intros [|r rs] Hrow Hrs; simpl.
  - constructor; [exact Hrow|constructor].
  - apply Forall_cons_iff in Hrs as [_ Hrs]. constructor; assumption.
  - constructor; [exact Hrow|constructor].
  - apply Forall_cons_iff in Hrs as [Hr Hrs].
    constructor; [exact Hr|apply IH; assumption].
Qed.

Lemma Forall_set_row {A : Type} (P : A -> Prop) (l : nat) (row : A)
      (rs : list A) :
  P row -> Forall P rs -> Forall P (set_row l row rs).
Proof.
  intros Hrow Hrs. unfold set_row.
  destruct (l <? length rs)%nat; [|exact Hrs].
  apply Forall_update; assumption.
Qed.

Lemma shaped_set_row (n s l : nat) (k : stagearr) (row : vec) :
  shaped n s k -> length row = n ->
  shaped n s (mkStages n (set_row l row (rows k))).
Proof.
  intros [Hw [Hs Hrows]] Hrow. repeat split; simpl.
  - rewrite length_set_row. exact Hs.
  - apply Forall_set_row; assumption.
Qed.

Lemma shaped_eq (n s : nat) (k k' : stagearr) :
  shaped n s k -> shaped n s k' ->
  (forall j, (j < s)%nat -> nth_error (rows k) j = nth_error (rows k') j) ->
  k = k'.
Proof.
  intros [Hw [Hs _]] [Hw' [Hs' _]] Hrows.
  destruct k as [wd rs], k' as [wd' rs']. simpl in *. subst wd wd'.
  f_equal. apply nth_error_ext. intros j.
  destruct (Nat.lt_ge_cases j s) as [Hj|Hj]; [apply Hrows; exact Hj|].
  rewrite (proj2 (nth_error_None rs j)) by lia.
  rewrite (proj2 (nth_error_None rs' j)) by lia. reflexivity.
Qed.

Lemma shaped_one (n : nat) (k : stagearr) :
  shaped n 1 k -> exists r0, k = mkStages n [r0] /\ length r0 = n.
Proof.
  intros [Hw [Hs Hrows]]. destruct k as [wd [|r0 [|r1 rs]]]; simpl in *;
    try discriminate Hs.
  exists r0. subst wd. split; [reflexivity|].
  apply Forall_cons_iff in Hrows as [Hr _]. exact Hr.
Qed.

Lemma strictly_lower_row (self : TableauRKExplicit.t) (l : nat) (a_l : vec) :
  strictly_lower (TableauRKExplicit.a self) ->
  jnp.getitem (TableauRKExplicit.a self) (Z.of_nat l) = Ok a_l ->
  forall j, (l <= j)%nat -> nth j a_l 0 = 0.
Proof.
  intros Hstrict Hget j Hj.
  apply getitem_nat_le in Hget as [i [Hi Hrow]].
  specialize (Hstrict i j ltac:(lia)). unfold entry in Hstrict.
  rewrite (nth_error_nth _ _ _ Hrow) in Hstrict. exact Hstrict.
Qed.

(** ** The loop of [_get_ks] *)

Lemma get_ks_unfold expand_dim (self : TableauRKExplicit.t) (f : rhs)
      (time dt : Qc) (y_t : vec) (w : world) :
  TableauRKExplicit._get_ks expand_dim self f time dt y_t w
  = for_each (seq 0 (TableauRKExplicit.stages self))
             (stage_body self f time dt y_t)
             (expand_dim y_t (TableauRKExplicit.stages self)) w.
Proof. reflexivity. Qed.

(** One pass of the loop, operation by operation. *)
Lemma stage_body_eq (self : TableauRKExplicit.t) (f : rhs)
      (time dt : Qc) (y_t : vec) (l : nat) (k : stagearr) (w : world) :
  (l < TableauRKExplicit.stages self)%nat ->
  stage_body self f time dt y_t l k w =
  match jnp.getitem (TableauRKExplicit.a self) (Z.of_nat l) with
  | Raise e => (Raise e, w)
  | Ok a_l =>
      match jnp.matmul a_l k with
      | Raise e => (Raise e, w)
      | Ok dy_l =>
          match jnp.add y_t (jnp.smul dt dy_l) with
          | Raise e => (Raise e, w)
          | Ok y_l =>
              let t_l := time + nth l (TableauRKExplicit.c self) 0 * dt in
              let w1 := mkWorld (obj w) (calls w ++ [(t_l, y_l, l)]) in
              match f t_l y_l l with
              | Raise e => (Raise e, w1)
              | Ok k_l => (jnp.at_set k l k_l, w1)
              end
          end
      end
  end.
Proof.
  intros Hl. unfold stage_body, bind, lift, call_rhs.
  destruct (jnp.getitem (TableauRKExplicit.a self) (Z.of_nat l)) as [a_l|e];
    [|reflexivity].
  destruct (jnp.matmul a_l k) as [dy_l|e]; [|reflexivity].
  rewrite (getitem_nat _ _ _ (nth_error_times time dt _ l Hl)).
  destruct (jnp.add y_t (jnp.smul dt dy_l)) as [y_l|e]; [|reflexivity].
  cbv zeta.
  destruct (f _ y_l l) as [k_l|e]; reflexivity.
Qed.

(** The log of the loop grows by one call per pass that gets as far as
    calling [f]. *)
Lemma stage_loop_log (self : TableauRKExplicit.t) (f : rhs)
      (time dt : Qc) (y_t : vec) (m : nat) :
  forall (start : nat) (k : stagearr) (w : world),
    (start + m = TableauRKExplicit.stages self)%nat ->
    exists L : list call,
      calls (snd (for_each (seq start m) (stage_body self f time dt y_t) k w))
      = calls w ++ L /\
      map snd L = seq start (length L) /\
      (length L <= m)%nat /\
      Forall (fun c' => fst (fst c')
                        = time + nth (snd c') (TableauRKExplicit.c self) 0 * dt)
             L /\
      (forall k', fst (for_each (seq start m) (stage_body self f time dt y_t) k w)
                  = Ok k' -> length L = m).
Proof.
  induction m as [|m IH]; intros start k w Hm.
  - exists []. simpl. rewrite app_nil_r. repeat split; auto.
  - remember (for_each (seq start (S m)) (stage_body self f time dt y_t) k w)
      as R eqn:HR.
    cbn [seq for_each] in HR. unfold bind in HR.
    rewrite stage_body_eq in HR by lia.
    assert (Hnone : forall e, R = (Raise e, w) ->
              exists L : list call,
                calls (snd R) = calls w ++ L /\
                map snd L = seq start (length L) /\
                (length L <= S m)%nat /\
                Forall (fun c' => fst (fst c')
                         = time + nth (snd c') (TableauRKExplicit.c self) 0 * dt)
                       L /\
                (forall k', fst R = Ok k' -> length L = S m)).
    { intros e ->. exists []. simpl. rewrite app_nil_r.
      repeat split; auto; try lia. intros ? H; discriminate H. }
    destruct (jnp.getitem (TableauRKExplicit.a self) (Z.of_nat start))
      as [a_l|e]; [|eauto].
    destruct (jnp.matmul a_l k) as [dy_l|e]; [|eauto].
    destruct (jnp.add y_t (jnp.smul dt dy_l)) as [y_l|e]; [|eauto].
    clear Hnone. cbv zeta in HR.
    set (c1 := (time + nth start (TableauRKExplicit.c self) 0 * dt, y_l, start))
      in HR.
    assert (Hone : forall e,
              R = (Raise e, mkWorld (obj w) (calls w ++ [c1])) ->
              exists L : list call,
                calls (snd R) = calls w ++ L /\
                map snd L = seq start (length L) /\
                (length L <= S m)%nat /\
                Forall (fun c' => fst (fst c')
                         = time + nth (snd c') (TableauRKExplicit.c self) 0 * dt)
                       L /\
                (forall k', fst R = Ok k' -> length L = S m)).
    { intros e ->. exists [c1]. simpl. repeat split; auto; try lia.
      intros ? H; discriminate H. }
    destruct (f _ y_l start) as [k_l|e]; [|eauto].
    destruct (jnp.at_set k start k_l) as [k1|e]; [|eauto].
    clear Hone.
    destruct (IH (S start) k1 (mkWorld (obj w) (calls w ++ [c1]))
                 ltac:(lia)) as [L [Hcalls [Hidx [Hlen [Htime Hok]]]]].
    rewrite <- HR in Hcalls, Hok.
    exists (c1 :: L). simpl in Hcalls. rewrite Hcalls, <- app_assoc. simpl.
    repeat split; auto; try lia.
    + rewrite Hidx. reflexivity.
    + intros k' Hk'. rewrite (Hok k' Hk'). reflexivity.
Qed.


Lemma stage_input_agree (self : TableauRKExplicit.t) (dt : Qc) (y_t : vec)
      (n l : nat) (k k' : stagearr) :
  strictly_lower (TableauRKExplicit.a self) ->
  shaped n (TableauRKExplicit.stages self) k ->
  shaped n (TableauRKExplicit.stages self) k' ->
  (forall j, (j < l)%nat -> nth_error (rows k) j = nth_error (rows k') j) ->
  stage_input self dt y_t k l = stage_input self dt y_t k' l.
Proof.
  intros Hstrict Hk Hk' Hlow. unfold stage_input.
  destruct (jnp.getitem (TableauRKExplicit.a self) (Z.of_nat l))
    as [a_l|e] eqn:Hget; [|reflexivity].
  cbn [rbind].
  rewrite (matmul_agree n _ l a_l k k' Hk Hk' Hlow
             (strictly_lower_row self l a_l Hstrict Hget)).
  reflexivity.
Qed.

Lemma stage_loop_solves (self : TableauRKExplicit.t) (f : rhs)
      (time dt : Qc) (y_t : vec) :
  square self -> state_shaped (length y_t) f ->
  forall (m start : nat) (k : stagearr) (w : world),
    (start + m = TableauRKExplicit.stages self)%nat ->
    shaped (length y_t) (TableauRKExplicit.stages self) k ->
    exists (k1 : stagearr) (w1 : world),
      for_each (seq start m) (stage_body self f time dt y_t) k w = (Ok k1, w1) /\
      shaped (length y_t) (TableauRKExplicit.stages self) k1 /\
      obj w1 = obj w /\
      (forall j, (j < start)%nat ->
                 nth_error (rows k1) j = nth_error (rows k) j) /\
      (strictly_lower (TableauRKExplicit.a self) ->
       forall l, (start <= l < TableauRKExplicit.stages self)%nat ->
                 exists y_l k_l,
                   stage_input self dt y_t k1 l = Ok y_l /\
                   f (stage_time self time dt l) y_l l = Ok k_l /\
                   nth_error (rows k1) l = Some k_l).
Proof.
  intros [Hrows Hcols] Hf.
  induction m as [|m IH]; intros start k w Hm Hk.
  - exists k, w. simpl.
    split; [reflexivity|split; [exact Hk|split; [reflexivity|split]]];
      [reflexivity|intros _ l Hl; lia].
  - cbn [seq for_each]. unfold bind. rewrite stage_body_eq by lia.
    destruct (nth_error (TableauRKExplicit.a self) start) as [a_l|] eqn:Ha;
      [|apply nth_error_None in Ha; lia].
    pose proof (getitem_nat _ _ _ Ha) as Hget. rewrite Hget.
    assert (Hal : length a_l = TableauRKExplicit.stages self).
    { apply nth_error_In in Ha.
      exact (proj1 (Forall_forall _ _) Hcols a_l Ha). }
    destruct (matmul_ok _ _ a_l k Hk Hal) as [dy_l [Hdy Hdylen]].
    rewrite Hdy.
    rewrite add_same_length by (rewrite length_smul; congruence).
    cbv zeta.
    set (y_l := map2 Qcplus y_t (jnp.smul dt dy_l)).
    assert (Hyl : length y_l = length y_t).
    { unfold y_l. rewrite length_map2, length_smul, Hdylen. apply Nat.min_id. }
    destruct (Hf (time + nth start (TableauRKExplicit.c self) 0 * dt)
                 y_l start Hyl) as [k_l [Hkl Hkllen]].
    rewrite Hkl, at_set_eq, (proj1 Hk), (broadcast_row_same _ _ Hkllen).
    cbn [rbind].
    set (k' := mkStages (length y_t) (set_row start k_l (rows k))).
    assert (Hk' : shaped (length y_t) (TableauRKExplicit.stages self) k')
      by (apply shaped_set_row; assumption).
    set (w' := mkWorld (obj w) (calls w ++ _)).
    destruct (IH (S start) k' w' ltac:(lia) Hk')
      as [k1 [w1 [Hrun [Hk1 [Hobj [Hbelow Hsolve]]]]]].
    exists k1, w1.
    assert (Hsame : forall j, (j < start)%nat ->
                              nth_error (rows k1) j = nth_error (rows k) j).
    { intros j Hj. rewrite Hbelow by lia. unfold k'. simpl.
      rewrite nth_error_set_row by (destruct Hk as [_ [Hs _]]; lia).
      destruct (j =? start)%nat eqn:Hjs; [apply Nat.eqb_eq in Hjs; lia|].
      reflexivity. }
    split; [exact Hrun|split; [exact Hk1|split; [exact Hobj|split]]];
      [exact Hsame|].
    intros Hstrict l Hl.
    destruct (Nat.eq_dec l start) as [->|Hne]; [|apply Hsolve; [exact Hstrict|lia]].
    exists y_l, k_l. split; [|split].
    + rewrite (stage_input_agree self dt y_t (length y_t) start k1 k
                 Hstrict Hk1 Hk Hsame).
      unfold stage_input. rewrite Hget. cbn [rbind]. rewrite Hdy. cbn [rbind].
      apply add_same_length. rewrite length_smul. congruence.
    + exact Hkl.
    + rewrite Hbelow by lia. unfold k'. simpl.
      rewrite nth_error_set_row by (destruct Hk as [_ [Hs _]]; lia).
      rewrite Nat.eqb_refl. reflexivity.
Qed.

Lemma solves_stages_agree (self : TableauRKExplicit.t) (f : rhs)
      (time dt : Qc) (y_t : vec) (n : nat) (k k' : stagearr) :
  strictly_lower (TableauRKExplicit.a self) ->
  shaped n (TableauRKExplicit.stages self) k ->
  shaped n (TableauRKExplicit.stages self) k' ->
  solves_stages self f time dt y_t k ->
  solves_stages self f time dt y_t k' ->
  forall l, (l <= TableauRKExplicit.stages self)%nat ->
            forall j, (j < l)%nat ->
                      nth_error (rows k) j = nth_error (rows k') j.
Proof.
  intros Hstrict Hk Hk' Hsol Hsol'.
  induction l as [|l IH]; intros Hl j Hj; [lia|].
  specialize (IH ltac:(lia)).
  destruct (Nat.eq_dec j l) as [->|Hne]; [|apply IH; lia].
  destruct (Hsol l ltac:(lia)) as [y_l [k_l [Hin [Hf Hrow]]]].
  destruct (Hsol' l ltac:(lia)) as [y_l' [k_l' [Hin' [Hf' Hrow']]]].
  rewrite (stage_input_agree self dt y_t n l k k' Hstrict Hk Hk' IH) in Hin.
  rewrite Hin in Hin'. injection Hin' as <-.
  rewrite Hf in Hf'. injection Hf' as <-.
  rewrite Hrow, Hrow'. reflexivity.
Qed.

(** The loop of [_get_ks] reads the log of calls but no field of the
    integrator object. *)
Lemma stage_loop_ignores_obj (self : TableauRKExplicit.t) (f : rhs)
      (time dt : Qc) (y_t : vec) (m : nat) :
  forall (start : nat) (k : stagearr) (o o' : Integrator.integrator)
         (cs : list call),
    (start + m = TableauRKExplicit.stages self)%nat ->
    exists (r : result stagearr) (cs' : list call),
      for_each (seq start m) (stage_body self f time dt y_t) k (mkWorld o cs)
      = (r, mkWorld o cs') /\
      for_each (seq start m) (stage_body self f time dt y_t) k (mkWorld o' cs)
      = (r, mkWorld o' cs').
Proof.
  induction m as [|m IH]; intros start k o o' cs Hm.
  - exists (Ok k), cs. split; reflexivity.
  - cbn [seq for_each]. unfold bind. rewrite !stage_body_eq by lia.
    destruct (jnp.getitem (TableauRKExplicit.a self) (Z.of_nat start))
      as [a_l|e]; [|eauto].
    destruct (jnp.matmul a_l k) as [dy_l|e]; [|eauto].
    destruct (jnp.add y_t (jnp.smul dt dy_l)) as [y_l|e]; [|eauto].
    cbv zeta. cbn [obj calls].
    destruct (f _ y_l start) as [k_l|e]; [|eauto].
    destruct (jnp.at_set k start k_l) as [k1|e]; [|eauto].
    apply IH. lia.
Qed.

(** ** Shapes of the concrete inputs *)

Lemma shapes_like_zeros : shapes_like zeros_like_stages.
Proof.
  intros y s. unfold zeros_like_stages, shaped. simpl.
  split; [reflexivity|split; [apply repeat_length|]].
  apply Forall_forall. intros r Hr. apply repeat_spec in Hr. subst r.
  apply repeat_length.
Qed.


Lemma decay_shaped (n : nat) : state_shaped n decay.
Proof.
  intros time y l Hy. exists (map Qcopp y).
  split; [reflexivity|]. rewrite length_map. exact Hy.
Qed.

Lemma square_bt_heun : square bt_heun.
Proof. split; [reflexivity|repeat constructor]. Qed.

Lemma square_bt_rk4 : square bt_rk4.
Proof. split; [reflexivity|repeat constructor]. Qed.

Lemma square_bt_rk12 : square bt_rk12.
Proof. split; [reflexivity|repeat constructor]. Qed.

Lemma strictly_lower_bt_heun : strictly_lower (TableauRKExplicit.a bt_heun).
Proof. apply strictly_lowerb_spec. vm_compute. reflexivity. Qed.

(** On [bt_rk4], whose [a[3][3]] is one, the fourth stage reads what
    [expand_dim] left in [k[3]]: the two fillings give different stage
    derivatives. *)
Lemma get_ks_bt_rk4_reads_the_filling :
  fst (TableauRKExplicit._get_ks zeros_like_stages bt_rk4
         decay 0 (q 1 10) [1] world0)
  <> fst (TableauRKExplicit._get_ks ones_like_stages bt_rk4
            decay 0 (q 1 10) [1] world0).
Proof. vm_compute. intros H. discriminate H. Qed.

(** ** Stage evaluation *)

(** X1.  Whatever the tableau, the right-hand side and the state,
    [_get_ks] calls [f] at most [stages] times, with the stage indices
    [0, 1, 2, ...] in this order and at the times [t + c[l] * dt]; when it
    returns it has called [f] exactly [stages] times. *)
Theorem get_ks_call_log expand_dim (self : TableauRKExplicit.t) (f : rhs)
        (time dt : Qc) (y_t : vec) (w : world) :
  exists L : list call,
    calls (snd (TableauRKExplicit._get_ks expand_dim self f time dt y_t w))
    = calls w ++ L /\
    map snd L = seq 0 (length L) /\
    (length L <= TableauRKExplicit.stages self)%nat /\
    Forall (fun c' => fst (fst c') = stage_time self time dt (snd c')) L /\
    (forall k, fst (TableauRKExplicit._get_ks expand_dim self f time dt y_t w)
               = Ok k -> length L = TableauRKExplicit.stages self).
Proof.
  rewrite get_ks_unfold.
  apply (stage_loop_log self f time dt y_t (TableauRKExplicit.stages self)
           0%nat). lia.
Qed.

(** X2.  On a tableau whose [a] is square and strictly lower triangular,
    with a right-hand side that returns derivatives of the shape of the
    state, [_get_ks] returns, and what it returns is the one collection
    of [stages] rows that satisfies the stage equations: row [l] is
    [f(t + c[l] * dt, y + dt * (a[l,:] @ k), stage=l)]. *)
Theorem get_ks_solves_stages expand_dim (self : TableauRKExplicit.t) (f : rhs)
        (time dt : Qc) (y_t : vec) (w : world) :
  shapes_like expand_dim ->
  square self ->
  strictly_lower (TableauRKExplicit.a self) ->
  state_shaped (length y_t) f ->
  exists (k : stagearr) (w1 : world),
    TableauRKExplicit._get_ks expand_dim self f time dt y_t w = (Ok k, w1) /\
    shaped (length y_t) (TableauRKExplicit.stages self) k /\
    solves_stages self f time dt y_t k /\
    (forall k', shaped (length y_t) (TableauRKExplicit.stages self) k' ->
                solves_stages self f time dt y_t k' -> k' = k).
Proof.
  intros Hexp Hsq Hstrict Hf. rewrite get_ks_unfold.
  destruct (stage_loop_solves self f time dt y_t Hsq Hf
              (TableauRKExplicit.stages self) 0%nat
              (expand_dim y_t (TableauRKExplicit.stages self)) w
              ltac:(lia) (Hexp _ _))
    as [k [w1 [Hrun [Hk [_ [_ Hsolve]]]]]].
  exists k, w1.
  assert (Hsol : solves_stages self f time dt y_t k).
  { intros l Hl. apply (Hsolve Hstrict). lia. }
  split; [exact Hrun|split; [exact Hk|split; [exact Hsol|]]].
  intros k' Hk' Hsol'.
  apply (shaped_eq _ _ _ _ Hk' Hk).
  intros j Hj.
  apply (solves_stages_agree self f time dt y_t _ k' k Hstrict Hk' Hk Hsol' Hsol
           (TableauRKExplicit.stages self) ltac:(lia) j Hj).
Qed.

Lemma get_ks_solves_stages_bt_heun :
  exists (k : stagearr) (w1 : world),
    TableauRKExplicit._get_ks zeros_like_stages bt_heun decay 0 (q 1 10) [1]
                              world0 = (Ok k, w1) /\
    solves_stages bt_heun decay 0 (q 1 10) [1] k.
Proof.
  destruct (get_ks_solves_stages zeros_like_stages bt_heun decay 0 (q 1 10)
              [1] world0 shapes_like_zeros square_bt_heun
              strictly_lower_bt_heun (decay_shaped 1))
    as [k [w1 [Hrun [_ [Hsol _]]]]].
  exists k, w1. split; [exact Hrun|exact Hsol].
Defined.



(** ** [step] *)

(** X4.  On a tableau with at least one stage, a square [a] and as many
    primary weights as stages, with a right-hand side that returns
    derivatives of the shape of the state, [step] returns: it calls [f]
    exactly [stages] times, returns [u + dt * (b @ k)] for the primary
    weights [b] and the stage derivatives [k] of [_get_ks], and leaves
    the rows [1] and [-1] of [k] in the cache of an otherwise unchanged
    integrator. *)
Theorem step_well_formed expand_dim (self : TableauRKExplicit.t) (w : world) (b : vec) :
  shapes_like expand_dim ->
  square self ->
  state_shaped (length (Integrator.u (obj w))) (Integrator.f (obj w)) ->
  primary_weights (TableauRKExplicit.b self) = Ok b ->
  length b = TableauRKExplicit.stages self ->
  (0 < TableauRKExplicit.stages self)%nat ->
  exists (k : stagearr) (L : list call) (dy : vec),
    TableauRKExplicit._get_ks expand_dim self (Integrator.f (obj w))
      (Integrator.t (obj w)) (Integrator.dt (obj w)) (Integrator.u (obj w)) w
    = (Ok k, mkWorld (obj w) (calls w ++ L)) /\
    length L = TableauRKExplicit.stages self /\
    jnp.matmul b k = Ok dy /\
    TableauRKExplicit.step expand_dim self w
    = (Ok (map2 Qcplus (Integrator.u (obj w))
                (jnp.smul (Integrator.dt (obj w)) dy)),
       mkWorld (Integrator.set_k (obj w) (fsal_cache k)) (calls w ++ L)).
Proof.
  intros Hexp Hsq Hf Hb Hblen Hpos.
  set (u := Integrator.u (obj w)) in *.
  destruct (stage_loop_solves self (Integrator.f (obj w))
              (Integrator.t (obj w)) (Integrator.dt (obj w)) u Hsq Hf
              (TableauRKExplicit.stages self) 0%nat
              (expand_dim u (TableauRKExplicit.stages self)) w
              ltac:(lia) (Hexp _ _))
    as [k [w1 [Hrun [Hk [Hobj _]]]]].
  rewrite <- get_ks_unfold with (expand_dim := expand_dim) in Hrun.
  destruct (stage_loop_log self (Integrator.f (obj w)) (Integrator.t (obj w))
              (Integrator.dt (obj w)) u (TableauRKExplicit.stages self) 0%nat
              (expand_dim u (TableauRKExplicit.stages self)) w ltac:(lia))
    as [L [Hcalls [_ [_ [_ Hall]]]]].
  rewrite <- get_ks_unfold with (expand_dim := expand_dim) in Hcalls, Hall.
  rewrite Hrun in Hcalls, Hall. simpl in Hcalls.
  specialize (Hall k eq_refl).
  assert (Hw1 : w1 = mkWorld (obj w) (calls w ++ L)).
  { destruct w1 as [o cs]. simpl in *. congruence. }
  subst w1.
  destruct (matmul_ok _ _ b k Hk Hblen) as [dy [Hdy Hdylen]].
  exists k, L, dy.
  split; [exact Hrun|split; [exact Hall|split; [exact Hdy|]]].
  apply (step_returns expand_dim self w (mkWorld (obj w) (calls w ++ L))
           k b dy); auto.
  - destruct Hk as [_ [Hs _]]. intros Hnil. rewrite Hnil in Hs. simpl in Hs. lia.
  - apply add_same_length. rewrite length_smul. fold u. congruence.
Qed.

Lemma step_well_formed_bt_rk4 :
  exists (k : stagearr) (L : list call) (dy : vec),
    length L = 4%nat /\
    jnp.matmul [q 1 6; q 1 3; q 1 3; q 1 6] k = Ok dy /\
    TableauRKExplicit.step zeros_like_stages bt_rk4 world0
    = (Ok (map2 Qcplus [1] (jnp.smul (q 1 10) dy)),
       mkWorld (Integrator.set_k integrator0 (fsal_cache k)) L).
Proof.
  destruct (step_well_formed zeros_like_stages bt_rk4 world0
              [q 1 6; q 1 3; q 1 3; q 1 6]
              shapes_like_zeros square_bt_rk4 (decay_shaped 1)
              eq_refl eq_refl (Nat.lt_0_succ 3))
    as [k [L [dy [_ [HL [Hdy Hstep]]]]]].
  exists k, L, dy. split; [exact HL|split; [exact Hdy|exact Hstep]].
Defined.

(** X5.  A call of [step] that raises leaves the integrator object
    exactly as it found it, stage cache included: the cache is assigned
    only after every operation that can fail. *)
Theorem step_failure_keeps_object expand_dim (self : TableauRKExplicit.t) (w : world) (e : exn) :
  fst (TableauRKExplicit.step expand_dim self w) = Raise e ->
  obj (snd (TableauRKExplicit.step expand_dim self w)) = obj w.
Proof.
  unfold TableauRKExplicit.step, bind, get_obj.
  pose proof (preserves_get_ks expand_dim self (Integrator.f (obj w))
                (Integrator.t (obj w)) (Integrator.dt (obj w))
                (Integrator.u (obj w)) w) as Hk.
  destruct (TableauRKExplicit._get_ks _ _ _ _ _ _ w) as [[k|e'] w1];
    simpl in Hk; [|intros _; exact Hk].
  unfold lift.
  repeat match goal with
         | |- context [match ?r with Ok _ => _ | Raise _ => _ end] =>
             destruct r; simpl; try (intros _; exact Hk)
         end.
  intros H; discriminate H.
Qed.

Lemma step_failure_raising_rhs :
  fst (TableauRKExplicit.step zeros_like_stages bt_heun world_raising)
  = Raise ValueError /\
  obj (snd (TableauRKExplicit.step zeros_like_stages bt_heun world_raising))
  = obj world_raising.
Proof.
  split; [reflexivity|].
  apply (step_failure_keeps_object zeros_like_stages bt_heun world_raising ValueError). reflexivity.
Defined.

(** X6.  [step] never reads the stage cache: on two integrators that
    differ in [k] only it returns the same result and makes the same calls
    of [f].  The derivatives a step leaves in the cache are not reused by
    the next, which evaluates every stage again. *)
Theorem step_ignores_cache expand_dim (self : TableauRKExplicit.t) (w w' : world) :
  same_but_k (obj w') (obj w) ->
  calls w' = calls w ->
  fst (TableauRKExplicit.step expand_dim self w')
  = fst (TableauRKExplicit.step expand_dim self w) /\
  calls (snd (TableauRKExplicit.step expand_dim self w'))
  = calls (snd (TableauRKExplicit.step expand_dim self w)).
Proof.
  intros [Hf [Ht [Hdt [Hu _]]]] Hcalls.
  destruct w as [o cs], w' as [o' cs']. simpl in *. subst cs'.
  unfold TableauRKExplicit.step, bind, get_obj. cbn [obj].
  rewrite Hf, Ht, Hdt, Hu. rewrite !get_ks_unfold.
  destruct (stage_loop_ignores_obj self (Integrator.f o) (Integrator.t o)
              (Integrator.dt o) (Integrator.u o)
              (TableauRKExplicit.stages self) 0%nat
              (expand_dim (Integrator.u o) (TableauRKExplicit.stages self))
              o o' cs ltac:(lia)) as [r [cs1 [Hrun Hrun']]].
  rewrite Hrun, Hrun'.
  destruct r as [k|e]; [|split; reflexivity].
  unfold lift.
  repeat match goal with
         | |- context [match ?r with Ok _ => _ | Raise _ => _ end] =>
             destruct r; simpl; try (split; reflexivity)
         end.
Qed.

Lemma step_ignores_cache_world0 :
  fst (TableauRKExplicit.step zeros_like_stages bt_rk4_dopri world0_cached)
  = fst (TableauRKExplicit.step zeros_like_stages bt_rk4_dopri world0) /\
  calls (snd (TableauRKExplicit.step zeros_like_stages bt_rk4_dopri
                world0_cached))
  = calls (snd (TableauRKExplicit.step zeros_like_stages bt_rk4_dopri world0)).
Proof.
  apply (step_ignores_cache zeros_like_stages bt_rk4_dopri world0
           world0_cached).
  - repeat split.
  - reflexivity.
Defined.

(** X7.  One step of the registered forward Euler tableau: when [f]
    returns a derivative [k0] of the shape of the state at the current
    time and state, [step] calls [f] once, there, returns [u + dt * k0],
    and leaves [k0] twice in the cache. *)
Theorem bt_feuler_step expand_dim (w : world) (k0 : vec) :
  shapes_like expand_dim ->
  Integrator.f (obj w) (Integrator.t (obj w)) (Integrator.u (obj w)) 0%nat
  = Ok k0 ->
  length k0 = length (Integrator.u (obj w)) ->
  TableauRKExplicit.step expand_dim bt_feuler w
  = (Ok (map2 Qcplus (Integrator.u (obj w))
              (jnp.smul (Integrator.dt (obj w)) k0)),
     mkWorld (Integrator.set_k (obj w)
                (mkStages (length (Integrator.u (obj w))) [k0; k0]))
             (calls w ++ [(Integrator.t (obj w), Integrator.u (obj w), 0%nat)])).
Proof.
  intros Hexp Hf Hlen.
  set (u := Integrator.u (obj w)) in *.
  set (n := length u) in *.
  assert (Hks : TableauRKExplicit._get_ks expand_dim bt_feuler
                  (Integrator.f (obj w)) (Integrator.t (obj w))
                  (Integrator.dt (obj w)) u w
                = (Ok (mkStages n [k0]),
                   mkWorld (obj w)
                     (calls w ++ [(Integrator.t (obj w), u, 0%nat)]))).
  { rewrite get_ks_unfold.
    change (TableauRKExplicit.stages bt_feuler) with 1%nat.
    destruct (shaped_one n _ (Hexp u 1%nat)) as [r0 [-> Hr0]].
    cbn [seq for_each]. unfold bind.
    rewrite stage_body_eq by (cbv; lia).
    change (jnp.getitem (TableauRKExplicit.a bt_feuler) (Z.of_nat 0))
      with (@Ok vec [0]).
    unfold jnp.matmul. cbn [length rows width Nat.eqb combine fold_right fst snd].
    rewrite smul_0, Hr0. fold n.
    replace (map2 Qcplus (repeat 0 n) (repeat 0 n)) with (repeat 0 n)
      by (symmetry; rewrite <- (repeat_length 0 n) at 2; apply map2_plus_zeros).
    rewrite smul_repeat_0.
    rewrite add_same_length by (rewrite repeat_length; reflexivity).
    cbv zeta.
    replace (map2 Qcplus u (repeat 0 n)) with u
      by (symmetry; apply map2_plus_zeros).
    replace (Integrator.t (obj w) + nth 0 (TableauRKExplicit.c bt_feuler) 0
             * Integrator.dt (obj w))
      with (Integrator.t (obj w)) by (simpl; ring).
    rewrite Hf, at_set_eq. cbn [width].
    rewrite (broadcast_row_same _ _ Hlen). reflexivity. }
  rewrite (step_returns expand_dim bt_feuler w _ (mkStages n [k0]) [1] k0
             (map2 Qcplus u (jnp.smul (Integrator.dt (obj w)) k0)) Hks).
  - reflexivity.
  - discriminate.
  - reflexivity.
  - unfold jnp.matmul. cbn [length rows width Nat.eqb combine fold_right fst snd].
    rewrite smul_1.
    replace (map2 Qcplus k0 (repeat 0 n)) with k0; [reflexivity|].
    rewrite <- Hlen. symmetry. apply map2_plus_zeros.
  - apply add_same_length. rewrite length_smul. symmetry. exact Hlen.
Qed.

Lemma bt_feuler_step_decay :
  TableauRKExplicit.step zeros_like_stages bt_feuler world0
  = (Ok (map2 Qcplus [1] (jnp.smul (q 1 10) (map Qcopp [1]))),
     mkWorld (Integrator.set_k integrator0
                (mkStages 1 [map Qcopp [1]; map Qcopp [1]]))
             [(0, [1], 0%nat)]).
Proof.
  apply (bt_feuler_step zeros_like_stages world0 (map Qcopp [1])
           shapes_like_zeros eq_refl eq_refl).
Defined.

(** ** [step_with_error] *)

(** X8.  On an adaptive tableau with a square [a] and a right-hand side
    that returns derivatives of the shape of the state, [step_with_error]
    calls [f] once per stage and then raises [NameError]; the integrator
    object is the one it received. *)
Theorem step_with_error_adaptive_cost expand_dim (self : TableauRKExplicit.t) (w : world) :
  shapes_like expand_dim ->
  square self ->
  state_shaped (length (Integrator.u (obj w))) (Integrator.f (obj w)) ->
  TableauRKExplicit.is_adaptive self = true ->
  exists L : list call,
    length L = TableauRKExplicit.stages self /\
    TableauRKExplicit.step_with_error expand_dim self w
    = (Raise NameError, mkWorld (obj w) (calls w ++ L)).
Proof.
  intros Hexp Hsq Hf Had.
  rewrite (step_with_error_adaptive _ _ _ Had).
  set (u := Integrator.u (obj w)) in *.
  destruct (stage_loop_solves self (Integrator.f (obj w))
              (Integrator.t (obj w)) (Integrator.dt (obj w)) u Hsq Hf
              (TableauRKExplicit.stages self) 0%nat
              (expand_dim u (TableauRKExplicit.stages self)) w
              ltac:(lia) (Hexp _ _))
    as [k [w1 [Hrun [Hk [Hobj _]]]]].
  destruct (stage_loop_log self (Integrator.f (obj w)) (Integrator.t (obj w))
              (Integrator.dt (obj w)) u (TableauRKExplicit.stages self) 0%nat
              (expand_dim u (TableauRKExplicit.stages self)) w ltac:(lia))
    as [L [Hcalls [_ [_ [_ Hall]]]]].
  rewrite Hrun in Hcalls, Hall. simpl in Hcalls.
  rewrite get_ks_unfold, Hrun.
  exists L. split; [apply (Hall k eq_refl)|].
  destruct w1 as [o cs]. simpl in *. congruence.
Qed.

Lemma step_with_error_adaptive_cost_bt_rk12 :
  exists L : list call,
    length L = 2%nat /\
    TableauRKExplicit.step_with_error zeros_like_stages bt_rk12 world0
    = (Raise NameError, mkWorld integrator0 L).
Proof.
  apply (step_with_error_adaptive_cost zeros_like_stages bt_rk12 world0
           shapes_like_zeros square_bt_rk12 (decay_shaped 1) eq_refl).
Defined.

(** ** [is_FSAL] *)

(** X9.  On a tableau whose [b] has rank 2, with at least one row in [a]
    and in [b], at least one offset, and as many columns in the last row
    of [a] as in the first row of [b], [is_FSAL] returns a boolean, and it
    is [True] exactly when the last row of [a] is the first row of [b] and
    the last offset is one. *)
Theorem is_FSAL_rank2_iff (self : TableauRKExplicit.t) (m : mat) :
  TableauRKExplicit.b self = Rank2 m ->
  TableauRKExplicit.a self <> [] ->
  m <> [] ->
  TableauRKExplicit.c self <> [] ->
  length (last (TableauRKExplicit.a self) []) = length (hd [] m) ->
  exists res : bool,
    TableauRKExplicit.is_FSAL self = Ok res /\
    (res = true <->
     last (TableauRKExplicit.a self) [] = hd [] m /\
     last (TableauRKExplicit.c self) 0 = 1).
Proof.
  intros Hb Ha Hm Hc Hlen. unfold TableauRKExplicit.is_FSAL, jnp.getrow.
  rewrite Hb, (getitem_last (A:=vec) _ [] Ha), (getitem_0 (A:=vec) _ [] Hm).
  cbn [rbind]. unfold jnp.eq, jnp.broadcast2. unfold mat, vec in *.
  rewrite (proj2 (Nat.eqb_eq _ _) Hlen). cbn [rbind].
  pose proof (all_eq_iff _ _ Hlen) as Hall.
  destruct (jnp.all _) eqn:Hres.
  - rewrite (getitem_last _ 0 Hc). cbn [rbind].
    eexists; split; [reflexivity|].
    rewrite Qc_eq_bool_true_iff. split.
    + intros H. split; [apply Hall; reflexivity|exact H].
    + intros [_ H]. exact H.
  - exists false. split; [reflexivity|]. split; [discriminate|].
    intros [H _]. apply Hall in H. discriminate H.
Qed.

Lemma is_FSAL_rank2_iff_bt_rk23 :
  exists res : bool,
    TableauRKExplicit.is_FSAL bt_rk23 = Ok res /\
    (res = true <->
     last (TableauRKExplicit.a bt_rk23) []
     = [q 7 24; q 1 4; q 1 3; q 1 8] /\
     last (TableauRKExplicit.c bt_rk23) 0 = 1).
Proof.
  apply (is_FSAL_rank2_iff bt_rk23
           [[q 7 24; q 1 4; q 1 3; q 1 8]; [q 2 9; q 1 3; q 4 9; 0]]
           eq_refl).
  - discriminate.
  - discriminate.
  - discriminate.
  - reflexivity.
Defined.

(** X10.  On every tableau whose [b] has rank 1, [is_FSAL] raises
    [IndexError], whatever [a] and [c] are. *)
Theorem is_FSAL_rank1_raises (self : TableauRKExplicit.t) (v : vec) :
  TableauRKExplicit.b self = Rank1 v ->
  TableauRKExplicit.is_FSAL self = Raise IndexError.
Proof.
  intros Hb. unfold TableauRKExplicit.is_FSAL. rewrite Hb.
  unfold jnp.getitem, jnp.index.
  destruct (length (TableauRKExplicit.a self)); [reflexivity|].
  cbn [rbind].
  destruct (nth_error _ _); reflexivity.
Qed.

Lemma is_FSAL_rank1_raises_bt_midpoint : TableauRKExplicit.is_FSAL bt_midpoint = Raise IndexError.
Proof. apply (is_FSAL_rank1_raises bt_midpoint [0; 1]). reflexivity. Defined.

(** ** [ODEProblem] *)

(** X11.  The normalisation of the initial state is idempotent: building
    a problem again from the [u0] that a problem stores gives the same
    problem. *)
Theorem ODEProblem_new_idempotent (fun_ : rhs) (tspan : list Qc) (u0 : ndarray) (p : ODEProblem.t) :
  ODEProblem.new fun_ tspan u0 = Ok p ->
  ODEProblem.new fun_ tspan (ODEProblem.u0 p) = Ok p.
Proof.
  unfold ODEProblem.new.
  destruct tspan as [|t0 [|t1 [|t2 rest]]];
    try (rewrite pre_init_not_pair by (simpl; lia); discriminate).
  rewrite !pre_init_pair. cbn [rbind fst snd].
  intros H; injection H as <-. cbn [ODEProblem.u0].
  destruct (jnp.ndim u0 =? 0)%nat eqn:Hnd; [reflexivity|].
  rewrite Hnd. reflexivity.
Qed.

Lemma ODEProblem_new_idempotent_scalar :
  ODEProblem.new decay [0; 1] (mkArray [1%nat] [1])
  = Ok (ODEProblem.mk decay (jnp.asarray0 0, jnp.asarray0 1)
                      (mkArray [1%nat] [1])).
Proof.
  apply (ODEProblem_new_idempotent decay [0; 1] (mkArray [] [1])
           (ODEProblem.mk decay (jnp.asarray0 0, jnp.asarray0 1)
                          (mkArray [1%nat] [1]))).
  reflexivity.
Defined.

(** ** More on [step] *)

(** X12.  When the first call of [f], at the time of stage [0] and at
    the current state, raises, [step] raises the same exception after
    that one call and leaves the integrator as it was: this on every
    tableau with at least one stage whose [a] is square and strictly
    lower triangular. *)
Theorem step_first_stage_failure expand_dim (self : TableauRKExplicit.t) (w : world) (e : exn) :
  shapes_like expand_dim ->
  square self ->
  strictly_lower (TableauRKExplicit.a self) ->
  (0 < TableauRKExplicit.stages self)%nat ->
  Integrator.f (obj w)
    (stage_time self (Integrator.t (obj w)) (Integrator.dt (obj w)) 0)
    (Integrator.u (obj w)) 0%nat = Raise e ->
  TableauRKExplicit.step expand_dim self w
  = (Raise e,
     mkWorld (obj w)
       (calls w ++
        [(stage_time self (Integrator.t (obj w)) (Integrator.dt (obj w)) 0,
          Integrator.u (obj w), 0%nat)])).
Proof.
  intros Hexp [Hrows Hcols] Hstrict Hpos Hf.
  unfold TableauRKExplicit.step, bind, get_obj.
  rewrite get_ks_unfold.
  set (u := Integrator.u (obj w)) in *.
  set (s := TableauRKExplicit.stages self) in *.
  destruct s as [|s'] eqn:Hs; [lia|].
  cbn [seq for_each]. unfold bind.
  rewrite stage_body_eq by (fold (TableauRKExplicit.stages self); lia).
  destruct (nth_error (TableauRKExplicit.a self) 0) as [a_0|] eqn:Ha;
    [|apply nth_error_None in Ha; lia].
  rewrite (getitem_nat _ _ _ Ha).
  pose proof (Hexp u (S s')) as Hk.
  assert (Hzero : forall j, nth j a_0 0 = 0).
  { intros j. specialize (Hstrict 0%nat j ltac:(lia)). unfold entry in Hstrict.
    rewrite (nth_error_nth _ _ _ Ha) in Hstrict. exact Hstrict. }
  assert (Hal : length a_0 = S s').
  { apply nth_error_In in Ha.
    exact (proj1 (Forall_forall _ _) Hcols a_0 Ha). }
  unfold jnp.matmul.
  destruct Hk as [Hw [Hlen Hshape]].
  rewrite Hal, Hlen, Nat.eqb_refl, Hw.
  rewrite (weighted_sum_zero (length u) a_0 _ Hshape Hzero).
  rewrite smul_repeat_0.
  rewrite add_same_length by (rewrite repeat_length; reflexivity).
  rewrite map2_plus_zeros. cbv zeta.
  fold (stage_time self (Integrator.t (obj w)) (Integrator.dt (obj w)) 0).
  rewrite Hf. reflexivity.
Qed.

Lemma step_first_stage_failure_raising :
  TableauRKExplicit.step zeros_like_stages bt_heun world_raising
  = (Raise ValueError,
     mkWorld (obj world_raising) [(stage_time bt_heun 0 (q 1 10) 0, [1], 0%nat)]).
Proof.
  apply (step_first_stage_failure zeros_like_stages bt_heun world_raising
           ValueError shapes_like_zeros square_bt_heun strictly_lower_bt_heun
           (Nat.lt_0_succ 1) eq_refl).
Defined.

Lemma step_rank2_as_rank1 expand_dim (name name' : string) (order order' : list Z)
        (a : mat) (r : vec) (rest : mat) (c : vec)
        (c_error c_error' : option vec) (w : world) :
  TableauRKExplicit.step expand_dim
    (TableauRKExplicit.mk name order a (Rank2 (r :: rest)) c c_error) w
  = TableauRKExplicit.step expand_dim
      (TableauRKExplicit.mk name' order' a (Rank1 r) c c_error') w.
Proof.
  unfold TableauRKExplicit.step, bind, get_obj.
  change (TableauRKExplicit._get_ks expand_dim
            (TableauRKExplicit.mk name order a (Rank2 (r :: rest)) c c_error))
    with (TableauRKExplicit._get_ks expand_dim
            (TableauRKExplicit.mk name' order' a (Rank1 r) c c_error')).
  destruct (TableauRKExplicit._get_ks _ _ _ _ _ _ w) as [[k|e] w1];
    [|reflexivity].
  cbn [TableauRKExplicit.b].
  rewrite (getitem_0 (r :: rest) [] ltac:(discriminate)). reflexivity.
Qed.

(** X13.  [step] advances with the first row of a rank-2 [b] and reads
    nothing else of it: a tableau with the rows [r :: rest] steps as the
    tableau with the single weight vector [r].  So the adaptive pair
    [bt_rk12] steps exactly as [bt_heun]. *)
Theorem step_uses_primary_row :
  (forall expand_dim (name name' : string) (order order' : list Z)
          (a : mat) (r : vec) (rest : mat) (c : vec)
          (c_error c_error' : option vec) (w : world),
      TableauRKExplicit.step expand_dim
        (TableauRKExplicit.mk name order a (Rank2 (r :: rest)) c c_error) w
      = TableauRKExplicit.step expand_dim
          (TableauRKExplicit.mk name' order' a (Rank1 r) c c_error') w) /\
  (forall expand_dim (w : world),
      TableauRKExplicit.step expand_dim bt_rk12 w
      = TableauRKExplicit.step expand_dim bt_heun w).
Proof.
  split.
  - intros. apply step_rank2_as_rank1.
  - intros. apply step_rank2_as_rank1.
Qed.
